(** * Serialising weights and hyperparameters in one file

    A shallow embedding of the notebook [examples/serialisation.ipynb]:
    the constructor [make], the writer [save] and the reader [load],
    together with models of the library routines they call
    ([json.dumps], [json.loads], [str.encode], [bytes.decode], binary file
    objects, [eqx.nn.MLP], [eqx.tree_serialise_leaves] and
    [eqx.tree_deserialise_leaves]). *)

From Stdlib Require Import ZArith NArith Ascii String Lia List.
From Stdlib.Strings Require Import Byte.
From stdpp Require Import gmap strings list fin_maps.

Local Open Scope string_scope.
Local Open Scope list_scope.

(** ** Exceptions and results

    Python exceptions are values of [exn]; a computation that may raise
    returns a [result].  [TruncatedStream] and [ShapeMismatch] are the two
    failure kinds the specification names for the leaf reader.
    [NotModelled] is not a Python exception: a library model returns it on
    an input that lies outside the fragment of the library embedded here
    (fractional numbers, nested containers, code points above U+00FF), so
    that nothing is asserted about such inputs.  [OutOfFuel] is the answer
    of the fuelled member loop of the JSON decoder when its fuel is spent;
    [json_loads_fuel] shows that [json_loads] never returns it. *)

Inductive exn :=
  | TypeError
  | ValueError
  | JSONDecodeError
  | UnicodeDecodeError
  | FileNotFoundError
  | IndexError
  | AssertionError
  | TruncatedStream
  | ShapeMismatch
  | NotModelled
  | OutOfFuel.

Inductive result (A : Type) :=
  | Ok (a : A)
  | Raise (e : exn).
Arguments Ok {A} a.
Arguments Raise {A} e.

Definition result_bind {A B} (m : result A) (k : A -> result B) : result B :=
  match m with
  | Ok a => k a
  | Raise e => Raise e
  end.

#[export] Instance result_ret : MRet result := fun A a => Ok a.
#[export] Instance result_mbind : MBind result := fun A B k m => result_bind m k.

#[export] Instance exn_eq_dec : EqDecision exn.
Proof. solve_decision. Defined.

(** ** Characters, strings and bytes

    A Python [str] is a [string] whose characters are the code points
    U+0000 to U+00FF; [bytes] are lists of [byte]. *)

Definition dquote : ascii := "034".
Definition backslash : ascii := "092".
Definition newline : ascii := "010".
Definition newline_byte : byte := x0a.

Definition byte_of_N (n : N) : byte :=
  match Byte.of_N n with
  | Some b => b
  | None => x00
  end.

(** [str.encode()]: UTF-8, one byte below U+0080 and two bytes from U+0080
    to U+00FF. *)
Definition utf8_encode_char (c : ascii) : list byte :=
  let n := N_of_ascii c in
  if (n <? 128)%N then [byte_of_ascii c]
  else [byte_of_N (192 + n / 64); byte_of_N (128 + n mod 64)].

Fixpoint str_encode (s : string) : list byte :=
  match s with
  | EmptyString => []
  | String c s' => utf8_encode_char c ++ str_encode s'
  end.

(** [bytes.decode()]: strict UTF-8.  A lead byte 0xC4..0xF4 announces a code
    point above U+00FF, which the embedding does not represent. *)
Fixpoint bytes_decode (bs : list byte) : result string :=
  match bs with
  | [] => Ok EmptyString
  | b :: bs' =>
      let n := Byte.to_N b in
      if (n <? 128)%N then
        s ← bytes_decode bs'; Ok (String (ascii_of_byte b) s)
      else if ((194 <=? n) && (n <=? 195))%N then
        match bs' with
        | c :: bs'' =>
            let m := Byte.to_N c in
            if ((128 <=? m) && (m <? 192))%N then
              s ← bytes_decode bs'';
              Ok (String (ascii_of_N ((n - 192) * 64 + (m - 128))) s)
            else Raise UnicodeDecodeError
        | [] => Raise UnicodeDecodeError
        end
      else if ((196 <=? n) && (n <=? 244))%N then Raise NotModelled
      else Raise UnicodeDecodeError
  end.

(** ** Python values

    The values a hyperparameter can take in the embedding: [None], booleans,
    integers, strings, and [bytes] objects.  The first four are the scalars
    [json] can encode; a [bytes] object is a value [json.dumps] refuses.
    Floating-point values are not represented.  A [dict] keeps its items in
    insertion order; its keys are strings and pairwise distinct
    ([dict_wf]). *)

Inductive pyval :=
  | PNone
  | PBool (b : bool)
  | PInt (z : Z)
  | PStr (s : string)
  | PBytes (bs : list byte).

Definition dict := list (string * pyval).

Definition dict_wf (d : dict) : Prop := NoDup (map fst d).

(** [d[k] = v]: an existing key keeps its position and takes the new value,
    a new key is appended. *)
Fixpoint dict_set (k : string) (v : pyval) (d : dict) : dict :=
  match d with
  | [] => [(k, v)]
  | (k', v') :: d' =>
      if String.eqb k k' then (k, v) :: d' else (k', v') :: dict_set k v d'
  end.

Fixpoint dict_get (k : string) (d : dict) : option pyval :=
  match d with
  | [] => None
  | (k', v') :: d' => if String.eqb k k' then Some v' else dict_get k d'
  end.

(** [dict(pairs)] *)
Definition dict_of_pairs (pairs : list (string * pyval)) : dict :=
  fold_left (fun d kv => dict_set (fst kv) (snd kv) d) pairs [].

(** Truth value testing, as performed by [if use_tanh:]. *)
Definition py_truth (v : pyval) : bool :=
  match v with
  | PNone => false
  | PBool b => b
  | PInt z => negb (z =? 0)%Z
  | PStr s => negb (String.eqb s "")
  | PBytes bs => match bs with [] => false | _ => true end
  end.

(** ** [json.dumps]

    The encoder with its default options ([ensure_ascii=True], no indent,
    separators [", "] and [": "]). *)

Definition hex_digit (n : N) : ascii :=
  if (n <? 10)%N then ascii_of_N (48 + n) else ascii_of_N (87 + n).

(** ['\\u{0:04x}'.format(n)] for a code point below 256. *)
Definition u_escape (n : N) : string :=
  String backslash (String "u" (String "0" (String "0"
    (String (hex_digit (n / 16)) (String (hex_digit (n mod 16)) EmptyString))))).

(** The replacement [py_encode_basestring_ascii] applies to one character. *)
Definition escape_char (c : ascii) : string :=
  let n := N_of_ascii c in
  if (n =? 34)%N then String backslash (String dquote EmptyString)
  else if (n =? 92)%N then String backslash (String backslash EmptyString)
  else if (n =? 8)%N then String backslash "b"
  else if (n =? 12)%N then String backslash "f"
  else if (n =? 10)%N then String backslash "n"
  else if (n =? 13)%N then String backslash "r"
  else if (n =? 9)%N then String backslash "t"
  else if ((32 <=? n) && (n <=? 126))%N then String c EmptyString
  else u_escape n.

Fixpoint escape (s : string) : string :=
  match s with
  | EmptyString => EmptyString
  | String c s' => escape_char c +:+ escape s'
  end.

Definition py_encode_basestring_ascii (s : string) : string :=
  String dquote (escape s +:+ String dquote EmptyString).

(** [int.__repr__]: decimal digits, most significant first.  (The
    interpreter's configurable limit on the number of digits of such a
    conversion is not modelled.) *)
Definition digit_char (n : N) : ascii := ascii_of_N (48 + n).

Fixpoint N_digits (fuel : nat) (n : N) (acc : string) : string :=
  match fuel with
  | O => acc
  | S fuel' =>
      let acc' := String (digit_char (n mod 10)) acc in
      if (n <? 10)%N then acc' else N_digits fuel' (n / 10) acc'
  end.

Definition N_repr (n : N) : string :=
  N_digits (S (N.to_nat (N.log2 n))) n EmptyString.

Definition int_repr (z : Z) : string :=
  if (z <? 0)%Z then String "-" (N_repr (Z.abs_N z)) else N_repr (Z.abs_N z).

(** The encoder's default hook raises [TypeError] on a value it cannot
    serialise. *)
Definition encode_value (v : pyval) : result string :=
  match v with
  | PNone => Ok "null"
  | PBool true => Ok "true"
  | PBool false => Ok "false"
  | PInt z => Ok (int_repr z)
  | PStr s => Ok (py_encode_basestring_ascii s)
  | PBytes _ => Raise TypeError
  end.

Definition encode_item (kv : string * pyval) : result string :=
  v ← encode_value (snd kv);
  Ok (py_encode_basestring_ascii (fst kv) +:+ ": " +:+ v).

Fixpoint encode_items (d : dict) : result string :=
  match d with
  | [] => Ok EmptyString
  | [kv] => encode_item kv
  | kv :: d' =>
      i ← encode_item kv;
      r ← encode_items d';
      Ok (i +:+ ", " +:+ r)
  end.

Definition json_dumps (d : dict) : result string :=
  r ← encode_items d; Ok ("{" +:+ r +:+ "}").

Definition hyperparameters : dict :=
  [("size", PInt 5); ("width", PInt 10); ("depth", PInt 3);
   ("use_tanh", PBool true)].

(** ** [json.loads]

    The decoder, after [json.decoder] and [json.scanner]: [skip_ws] is the
    whitespace regular expression, [scanstring] reads a string literal
    after its opening quote (strict mode), [scan_value] is [scan_once] on
    scalars, [scan_members] is the member loop of [JSONObject] and
    [json_loads] is [JSONDecoder.decode].  Documents other than an object
    with scalar members are answered [NotModelled]. *)

Definition is_ws (c : ascii) : bool :=
  let n := N_of_ascii c in
  ((n =? 32) || (n =? 9) || (n =? 10) || (n =? 13))%N.

Fixpoint skip_ws (s : string) : string :=
  match s with
  | EmptyString => s
  | String c s' => if is_ws c then skip_ws s' else s
  end.

Definition is_digit (c : ascii) : bool :=
  let n := N_of_ascii c in ((48 <=? n) && (n <=? 57))%N.

Definition hex_value (c : ascii) : option N :=
  let n := N_of_ascii c in
  if ((48 <=? n) && (n <=? 57))%N then Some (n - 48)%N
  else if ((97 <=? n) && (n <=? 102))%N then Some (n - 87)%N
  else if ((65 <=? n) && (n <=? 70))%N then Some (n - 55)%N
  else None.

(** The table [BACKSLASH] of one-letter escapes. *)
Definition unescape (e : ascii) : option ascii :=
  let n := N_of_ascii e in
  if (n =? 34)%N then Some dquote
  else if (n =? 92)%N then Some backslash
  else if (n =? 47)%N then Some "/"%char
  else if (n =? 98)%N then Some "008"%char
  else if (n =? 102)%N then Some "012"%char
  else if (n =? 110)%N then Some "010"%char
  else if (n =? 114)%N then Some "013"%char
  else if (n =? 116)%N then Some "009"%char
  else None.

Fixpoint scanstring (s : string) : result (string * string) :=
  match s with
  | EmptyString => Raise JSONDecodeError
  | String c s' =>
      if Ascii.eqb c dquote then Ok (EmptyString, s')
      else if Ascii.eqb c backslash then
        match s' with
        | EmptyString => Raise JSONDecodeError
        | String e s'' =>
            if Ascii.eqb e "u" then
              match s'' with
              | String h1 (String h2 (String h3 (String h4 t))) =>
                  match hex_value h1, hex_value h2, hex_value h3, hex_value h4 with
                  | Some a, Some b, Some c', Some d =>
                      let cp := (((a * 16 + b) * 16 + c') * 16 + d)%N in
                      if (cp <? 256)%N then
                        r ← scanstring t; Ok (String (ascii_of_N cp) r.1, r.2)
                      else Raise NotModelled
                  | _, _, _, _ => Raise JSONDecodeError
                  end
              | _ => Raise JSONDecodeError
              end
            else
              match unescape e with
              | Some c' => r ← scanstring s''; Ok (String c' r.1, r.2)
              | None => Raise JSONDecodeError
              end
        end
      else if (N_of_ascii c <? 32)%N then Raise JSONDecodeError
      else r ← scanstring s'; Ok (String c r.1, r.2)
  end.

Fixpoint scan_digits (acc : N) (s : string) : N * string :=
  match s with
  | EmptyString => (acc, s)
  | String c s' =>
      if is_digit c then scan_digits (10 * acc + (N_of_ascii c - 48))%N s'
      else (acc, s)
  end.

(** The integer part of [NUMBER_RE]: a lone zero, or a non-zero digit
    followed by digits. *)
Definition scan_int (s : string) : result (N * string) :=
  match s with
  | EmptyString => Raise JSONDecodeError
  | String c s' =>
      if Ascii.eqb c "0" then Ok (0%N, s')
      else if is_digit c then Ok (scan_digits 0 s)
      else Raise JSONDecodeError
  end.

Definition starts_with (c : ascii) (s : string) : bool :=
  match s with
  | String x _ => Ascii.eqb x c
  | EmptyString => false
  end.

(** A fraction or an exponent makes the number a float. *)
Definition starts_fraction (s : string) : bool :=
  starts_with "." s || starts_with "e" s || starts_with "E" s.

Definition scan_number (negative : bool) (s : string) : result (pyval * string) :=
  r ← scan_int s;
  if starts_fraction r.2 then Raise NotModelled
  else Ok (PInt (if negative then - Z.of_N r.1 else Z.of_N r.1), r.2).

Fixpoint strip_prefix (p s : string) : option string :=
  match p, s with
  | EmptyString, _ => Some s
  | String a p', String b s' => if Ascii.eqb a b then strip_prefix p' s' else None
  | String _ _, EmptyString => None
  end.

Definition scan_literal (lit : string) (v : pyval) (s : string)
  : result (pyval * string) :=
  match strip_prefix lit s with
  | Some r => Ok (v, r)
  | None => Raise JSONDecodeError
  end.

Definition scan_value (s : string) : result (pyval * string) :=
  match s with
  | EmptyString => Raise JSONDecodeError
  | String c s' =>
      if Ascii.eqb c dquote then r ← scanstring s'; Ok (PStr r.1, r.2)
      else if Ascii.eqb c "n" then scan_literal "null" PNone s
      else if Ascii.eqb c "t" then scan_literal "true" (PBool true) s
      else if Ascii.eqb c "f" then scan_literal "false" (PBool false) s
      else if Ascii.eqb c "-" then
        if starts_with "I" s' then Raise NotModelled else scan_number true s'
      else if is_digit c then scan_number false s
      else if Ascii.eqb c "[" || Ascii.eqb c "{" || Ascii.eqb c "N" || Ascii.eqb c "I"
      then Raise NotModelled
      else Raise JSONDecodeError
  end.

(** The member loop; [s] starts just after the opening quote of a key and
    [pairs] holds the members read so far. *)
Fixpoint scan_members (fuel : nat) (s : string) (pairs : list (string * pyval))
  : result (list (string * pyval) * string) :=
  match fuel with
  | O => Raise OutOfFuel
  | S fuel' =>
      k ← scanstring s;
      match skip_ws k.2 with
      | String ":" s3 =>
          v ← scan_value (skip_ws s3);
          let pairs' := pairs ++ [(k.1, v.1)] in
          match skip_ws v.2 with
          | String c s5 =>
              if Ascii.eqb c "}" then Ok (pairs', s5)
              else if Ascii.eqb c "," then
                match skip_ws s5 with
                | String q s6 =>
                    if Ascii.eqb q dquote then scan_members fuel' s6 pairs'
                    else Raise JSONDecodeError
                | EmptyString => Raise JSONDecodeError
                end
              else Raise JSONDecodeError
          | EmptyString => Raise JSONDecodeError
          end
      | _ => Raise JSONDecodeError
      end
  end.

(** [JSONObject]; [s] starts just after the opening brace. *)
Definition scan_object (s : string) : result (dict * string) :=
  match skip_ws s with
  | EmptyString => Raise JSONDecodeError
  | String c s' =>
      if Ascii.eqb c "}" then Ok ([], s')
      else if Ascii.eqb c dquote then
        r ← scan_members (S (String.length s')) s' [];
        Ok (dict_of_pairs r.1, r.2)
      else Raise JSONDecodeError
  end.

Definition starts_other_value (c : ascii) : bool :=
  Ascii.eqb c dquote || Ascii.eqb c "-" || is_digit c || Ascii.eqb c "["
  || Ascii.eqb c "t" || Ascii.eqb c "f" || Ascii.eqb c "n"
  || Ascii.eqb c "N" || Ascii.eqb c "I".

Definition json_loads (s : string) : result dict :=
  match skip_ws s with
  | EmptyString => Raise JSONDecodeError
  | String c s' =>
      if Ascii.eqb c "{" then
        r ← scan_object s';
        match skip_ws r.2 with
        | EmptyString => Ok r.1
        | String _ _ => Raise JSONDecodeError
        end
      else if starts_other_value c then Raise NotModelled
      else Raise JSONDecodeError
  end.

(** [json.loads(json.dumps(d) + "\n")] *)
Definition dumps_then_loads (d : dict) : result dict :=
  s ← json_dumps d; json_loads (s +:+ String newline EmptyString).

(** A key or a string between double quotes, for the examples. *)
Definition quoted (s : string) : string :=
  String dquote (s +:+ String dquote EmptyString).

(** ** Arrays and models

    A [float32] is its four bytes, in the order in which they are stored,
    so that equality of two values is bitwise identity.  An array has a
    shape and its elements in row-major order. *)

Record f32 := F32 { f32_b0 : byte; f32_b1 : byte; f32_b2 : byte; f32_b3 : byte }.

(** [x == y] on two elements, as identity of their bytes (the comparison of
    floating-point values is not modelled). *)
Definition f32_eqb (x y : f32) : bool :=
  Byte.eqb (f32_b0 x) (f32_b0 y) && Byte.eqb (f32_b1 x) (f32_b1 y)
  && Byte.eqb (f32_b2 x) (f32_b2 y) && Byte.eqb (f32_b3 x) (f32_b3 y).

Record ndarray := Ndarray { shape : list nat; data : list f32 }.

Definition numel (sh : list nat) : nat := foldr Nat.mul 1 sh.

Definition array_wf (a : ndarray) : Prop := length (data a) = numel (shape a).

Record Linear := MkLinear { weight : ndarray; bias : ndarray }.

Inductive activation_fn := jnp_tanh | jax_nn_relu.

Record MLP := MkMLP { layers : list Linear; activation : activation_fn }.

(** [a[i, j]] on a two-dimensional array; [None] stands for [IndexError]. *)
Definition getitem2 (a : ndarray) (i j : nat) : option f32 :=
  match shape a with
  | [rows; cols] =>
      if ((i <? rows) && (j <? cols))%nat then data a !! (i * cols + j)%nat else None
  | _ => None
  end.

(** The leaves of a model in traversal order: for each layer in turn its
    weight, then its bias.  The activation is not an array. *)
Definition linear_leaves (l : Linear) : list ndarray := [weight l; bias l].

Definition layer_leaves (ls : list Linear) : list ndarray :=
  flat_map linear_leaves ls.

Definition tree_leaves (m : MLP) : list ndarray := layer_leaves (layers m).

Definition model_wf (m : MLP) : Prop := Forall array_wf (tree_leaves m).

(** The structure of a model: everything but the contents of its arrays. *)
Definition tree_structure (m : MLP) : list (list nat) * activation_fn :=
  (map shape (tree_leaves m), activation m).

(** ** Binary file objects

    The world holds the contents of the files, the table of open file
    objects and a trace of the events that took place. *)

Inductive mode := rb | wb.

Record handle := Handle { h_path : string; h_mode : mode; h_pos : nat }.

Inductive event :=
  | EvOpen (fd : nat) (path : string) (m : mode)
  | EvWrite (fd : nat) (bs : list byte)
  | EvReadline (fd : nat) (bs : list byte)
  | EvRead (fd : nat) (bs : list byte)
  | EvClose (fd : nat)
  | EvMake (params : dict).

Record world := World {
  files : gmap string (list byte);
  handles : gmap nat handle;
  trace : list event
}.

Definition io (A : Type) : Type := world -> result A * world.

Definition io_ret {A} (a : A) : io A := fun w => (Ok a, w).

Definition io_bind {A B} (m : io A) (k : A -> io B) : io B :=
  fun w =>
    match m w with
    | (Ok a, w') => k a w'
    | (Raise e, w') => (Raise e, w')
    end.

#[export] Instance io_mret : MRet io := fun A a => io_ret a.
#[export] Instance io_mbind : MBind io := fun A B k m => io_bind m k.

(** A pure computation that may raise. *)
Definition lift {A} (r : result A) : io A := fun w => (r, w).

Definition log (e : event) (w : world) : world :=
  World (files w) (handles w) (trace w ++ [e]).

(** [open(path, mode)]: mode ["wb"] creates the file or truncates it,
    mode ["rb"] needs the file to exist. *)
Definition open_ (path : string) (m : mode) : io nat :=
  fun w =>
    let fd := fresh (dom (handles w)) in
    match m with
    | wb =>
        (Ok fd, log (EvOpen fd path wb)
                  (World (<[path := []]> (files w))
                         (<[fd := Handle path wb 0]> (handles w)) (trace w)))
    | rb =>
        match files w !! path with
        | Some _ =>
            (Ok fd, log (EvOpen fd path rb)
                      (World (files w)
                             (<[fd := Handle path rb 0]> (handles w)) (trace w)))
        | None => (Raise FileNotFoundError, w)
        end
    end.

Definition close (fd : nat) : io unit :=
  fun w => (Ok tt, log (EvClose fd) (World (files w) (delete fd (handles w)) (trace w))).

Definition contents (w : world) (path : string) : list byte :=
  default [] (files w !! path).

(** [f.write(bs)] at the current position. *)
Definition write (fd : nat) (bs : list byte) : io unit :=
  fun w =>
    match handles w !! fd with
    | Some (Handle path wb pos) =>
        let c := contents w path in
        (Ok tt, log (EvWrite fd bs)
                  (World (<[path := take pos c ++ bs ++ drop (pos + length bs) c]> (files w))
                         (<[fd := Handle path wb (pos + length bs)]> (handles w))
                         (trace w)))
    | _ => (Raise ValueError, w)
    end.

(** The bytes of a line: up to and including the first newline byte, or
    everything when there is none. *)
Fixpoint take_line (bs : list byte) : list byte :=
  match bs with
  | [] => []
  | b :: bs' => if Byte.eqb b newline_byte then [b] else b :: take_line bs'
  end.

(** [f.readline()] *)
Definition readline (fd : nat) : io (list byte) :=
  fun w =>
    match handles w !! fd with
    | Some (Handle path rb pos) =>
        let line := take_line (drop pos (contents w path)) in
        (Ok line, log (EvReadline fd line)
                    (World (files w)
                           (<[fd := Handle path rb (pos + length line)]> (handles w))
                           (trace w)))
    | _ => (Raise ValueError, w)
    end.

(** [f.read()]: everything from the current position to the end. *)
Definition read (fd : nat) : io (list byte) :=
  fun w =>
    match handles w !! fd with
    | Some (Handle path rb pos) =>
        let rest := drop pos (contents w path) in
        (Ok rest, log (EvRead fd rest)
                    (World (files w)
                           (<[fd := Handle path rb (pos + length rest)]> (handles w))
                           (trace w)))
    | _ => (Raise ValueError, w)
    end.

(** [with open(path, mode) as f: body]: the file object is closed when the
    block is left, by a return or by an exception, which then propagates. *)
Definition with_open {A} (path : string) (m : mode) (body : nat -> io A) : io A :=
  fun w =>
    match open_ path m w with
    | (Ok fd, w1) =>
        let (r, w2) := body fd w1 in
        (r, (close fd w2).2)
    | (Raise e, w1) => (Raise e, w1)
    end.

(** ** The leaf serialisation primitives *)

Definition f32_bytes (x : f32) : list byte :=
  [f32_b0 x; f32_b1 x; f32_b2 x; f32_b3 x].

Fixpoint f32s_of_bytes (bs : list byte) : list f32 :=
  match bs with
  | a :: b :: c :: d :: bs' => F32 a b c d :: f32s_of_bytes bs'
  | _ => []
  end.

(** Modelled from the spec: the encoding of a leaf is the framework's and
    is not among the sources.  The reader has to tell a leaf of another
    shape than the skeleton's, so a leaf is serialised with its shape ahead
    of its elements.  The header holds the rank of the array and then its
    dimensions, each number as a tally: that many bytes 1, closed by a
    byte 0.  The elements follow as raw bytes. *)
Definition nat_bytes (n : nat) : list byte := repeat x01 n ++ [x00].

Definition shape_bytes (sh : list nat) : list byte :=
  nat_bytes (length sh) ++ flat_map nat_bytes sh.

(** The bytes of one leaf. *)
Definition leaf_bytes (a : ndarray) : list byte :=
  shape_bytes (shape a) ++ flat_map f32_bytes (data a).

(** The number of bytes the layout of a leaf announces. *)
Definition leaf_size (a : ndarray) : nat :=
  length (shape_bytes (shape a)) + 4 * numel (shape a).

Definition weight_stream (m : MLP) : list byte :=
  flat_map leaf_bytes (tree_leaves m).

Definition expected_size (m : MLP) : nat :=
  sum_list (map leaf_size (tree_leaves m)).

Fixpoint write_leaves (f : nat) (leaves : list ndarray) : io unit :=
  match leaves with
  | [] => mret tt
  | a :: leaves' => _ ← write f (leaf_bytes a); write_leaves f leaves'
  end.

(** Modelled from the spec: [eqx.tree_serialise_leaves] is not among the
    sources.  It writes every leaf, in traversal order, into the sink, with
    no separators between the leaves. *)
Definition tree_serialise_leaves (f : nat) (model : MLP) : io unit :=
  write_leaves f (tree_leaves model).

(** Reading one number of a header. *)
Fixpoint scan_nat (bs : list byte) : result (nat * list byte) :=
  match bs with
  | [] => Raise TruncatedStream
  | b :: bs' =>
      if Byte.eqb b x00 then Ok (0, bs')
      else if Byte.eqb b x01 then r ← scan_nat bs'; Ok (S r.1, r.2)
      else Raise ValueError
  end.

Fixpoint scan_dims (rank : nat) (bs : list byte) : result (list nat * list byte) :=
  match rank with
  | 0 => Ok ([], bs)
  | S rank' =>
      d ← scan_nat bs;
      r ← scan_dims rank' d.2;
      Ok (d.1 :: r.1, r.2)
  end.

Definition scan_shape (bs : list byte) : result (list nat * list byte) :=
  r ← scan_nat bs; scan_dims r.1 r.2.

(** Reading one leaf from the front of the stream: its header, then as many
    elements as the shape in the header has. *)
Definition read_leaf (bs : list byte) : result (ndarray * list byte) :=
  h ← scan_shape bs;
  let n := 4 * numel h.1 in
  if (length h.2 <? n)%nat then Raise TruncatedStream
  else Ok (Ndarray h.1 (f32s_of_bytes (take n h.2)), drop n h.2).

Definition read_linear (bs : list byte) : result (Linear * list byte) :=
  w ← read_leaf bs;
  b ← read_leaf w.2;
  Ok (MkLinear w.1 b.1, b.2).

(** One leaf is read for every leaf of the skeleton. *)
Fixpoint read_layers (like : list Linear) (bs : list byte)
  : result (list Linear * list byte) :=
  match like with
  | [] => Ok ([], bs)
  | _ :: like' =>
      l ← read_linear bs;
      r ← read_layers like' l.2;
      Ok (l.1 :: r.1, r.2)
  end.

(** What the reader makes of the remaining bytes [rest] and a skeleton. *)
Definition deserialise_leaves (like : MLP) (rest : list byte) : result MLP :=
  r ← read_layers (layers like) rest;
  match r.2 with
  | _ :: _ => Raise ShapeMismatch
  | [] =>
      if bool_decide (map shape (layer_leaves r.1) = map shape (tree_leaves like))
      then Ok (MkMLP r.1 (activation like))
      else Raise ShapeMismatch
  end.

(** Modelled from the spec: [eqx.tree_deserialise_leaves] is not among the
    sources.  It reads the remaining bytes of the source and takes from
    them one leaf for every leaf of the skeleton, in traversal order.  It
    fails with [TruncatedStream] when the bytes end before the last leaf of
    the skeleton is read, and with [ShapeMismatch] when bytes are left over
    or when a leaf that was read has another shape than the leaf of the
    skeleton in its place.  The result has the structure of the skeleton
    and the leaves that were read. *)
Definition tree_deserialise_leaves (f : nat) (like : MLP) : io MLP :=
  rest ← read f; lift (deserialise_leaves like rest).

(** [json.loads(line.decode())] *)
Definition parse_header (line : list byte) : result dict :=
  text ← bytes_decode line; json_loads text.

(** The two exceptions a first line that is not a JSON document raises. *)
Definition is_malformed_header (e : exn) : bool :=
  match e with
  | JSONDecodeError | UnicodeDecodeError => true
  | _ => false
  end.

Definition json_representable (v : pyval) : bool :=
  match v with
  | PBytes _ => false
  | _ => true
  end.

(** [bs.partition(b"\n")]: the bytes before the first newline and the bytes
    after it. *)
Fixpoint split_newline (bs : list byte) : list byte * list byte :=
  match bs with
  | [] => ([], [])
  | b :: bs' =>
      if Byte.eqb b newline_byte then ([], bs')
      else let (l, r) := split_newline bs' in (b :: l, r)
  end.

(** [model.layers[n].weight[i, j]] *)
Definition weight_at (m : MLP) (n i j : nat) : option f32 :=
  l ← layers m !! n; getitem2 (weight l) i j.

(** ** The notebook *)

Section Notebook.

(** [jax.random]: [PRNGKey seed] is a key, [jr_split key n i] the [i]-th of
    the [n] keys [jr.split(key, n)] returns, and [jr_uniform key fan i] the
    [i]-th element [jr.uniform] draws from [key] for a layer with [fan]
    input features.  Nothing is assumed about them. *)
Context {prng_key : Type}.
Variable PRNGKey : Z -> prng_key.
Variable jr_split : prng_key -> nat -> nat -> prng_key.
Variable jr_uniform : prng_key -> nat -> nat -> f32.

Definition random_array (key : prng_key) (fan : nat) (sh : list nat) : ndarray :=
  Ndarray sh (map (jr_uniform key fan) (seq 0 (numel sh))).

Definition Linear_init (in_features out_features : nat) (key : prng_key) : Linear :=
  MkLinear
    (random_array (jr_split key 2 0) in_features [out_features; in_features])
    (random_array (jr_split key 2 1) in_features [out_features]).

Definition MLP_layers (in_size out_size width_size depth : nat) (key : prng_key)
  : list Linear :=
  let keys := jr_split key (depth + 1) in
  match depth with
  | O => [Linear_init in_size out_size (keys 0%nat)]
  | S d =>
      Linear_init in_size width_size (keys 0%nat)
      :: map (fun i => Linear_init width_size width_size (keys (S i))) (seq 0 d)
      ++ [Linear_init width_size out_size (keys depth)]
  end.

(** A size argument: an integer that is not negative ([bool] is a
    subclass of [int]). *)
Definition as_size (v : pyval) : result nat :=
  match v with
  | PInt z => if (z <? 0)%Z then Raise ValueError else Ok (Z.to_nat z)
  | PBool b => Ok (if b then 1%nat else 0%nat)
  | _ => Raise TypeError
  end.

(** Modelled from the spec: [eqx.nn.MLP] is not among the sources; the
    specification only says that the constructor builds a skeleton whose
    leaf structure the hyperparameters determine.  The layout here is the
    multi-layer perceptron of the library's documentation: [depth] hidden
    layers of [width_size] units, each layer a weight of shape
    (out, in) and a bias of shape (out), initialised from the key. *)
Definition eqx_nn_MLP (in_size out_size width_size depth : pyval)
    (act : activation_fn) (key : prng_key) : result MLP :=
  i ← as_size in_size;
  o ← as_size out_size;
  w ← as_size width_size;
  d ← as_size depth;
  Ok (MkMLP (MLP_layers i o w d key) act).

(** [make], whose parameters [key], [size], [width], [depth] and
    [use_tanh=False] are keyword-only. *)
Definition make (key : prng_key) (size width depth use_tanh : pyval) : result MLP :=
  let act := if py_truth use_tanh then jnp_tanh else jax_nn_relu in
  eqx_nn_MLP size (PInt 1) width depth act key.

Definition is_make_keyword (k : string) : bool :=
  String.eqb k "size" || String.eqb k "width" || String.eqb k "depth"
  || String.eqb k "use_tanh".

(** The call [make(key=key, **params)]: every item of [params] must name
    a keyword parameter other than [key], which is already given; the
    three parameters without a default must be present. *)
Definition make_kwargs (key : prng_key) (params : dict) : result MLP :=
  if forallb (fun kv => is_make_keyword kv.1) params then
    match dict_get "size" params, dict_get "width" params, dict_get "depth" params with
    | Some size, Some width, Some depth =>
        make key size width depth (default (PBool false) (dict_get "use_tanh" params))
    | _, _, _ => Raise TypeError
    end
  else Raise TypeError.

(** The same call, recorded in the trace. *)
Definition call_make (key : prng_key) (params : dict) : io MLP :=
  fun w => (make_kwargs key params, log (EvMake params) w).

(** [[
    def save(filename, params, model):
        with open(filename, "wb") as f:
            param_str = json.dumps(params)
            f.write((param_str + "\n").encode())
            eqx.tree_serialise_leaves(f, model)
    ]] *)
Definition save (filename : string) (params : dict) (model : MLP) : io unit :=
  with_open filename wb (fun f =>
    param_str ← lift (json_dumps params);
    _ ← write f (str_encode (param_str +:+ String newline EmptyString));
    tree_serialise_leaves f model).

(** [[
    def load(filename):
        with open(filename, "rb") as f:
            params = json.loads(f.readline().decode())
            model = make(key=jr.PRNGKey(0), **params)
            return eqx.tree_deserialise_leaves(f, model)
    ]] *)
Definition load (filename : string) : io MLP :=
  with_open filename rb (fun f =>
    line ← readline f;
    text ← lift (bytes_decode line);
    params ← lift (json_loads text);
    model ← call_make (PRNGKey 0) params;
    tree_deserialise_leaves f model).

(** The cells of the notebook, run in order:
    [[
    model = make(key=jr.PRNGKey(0), **hyperparameters)
    save("multipart_serialised.eqx", hyperparameters, model)
    newmodel = load("multipart_serialised.eqx")
    assert model.layers[1].weight[2, 2] == newmodel.layers[1].weight[2, 2]
    ]] *)
Definition notebook : io unit :=
  model ← lift (make_kwargs (PRNGKey 0) hyperparameters);
  _ ← save "multipart_serialised.eqx" hyperparameters model;
  newmodel ← load "multipart_serialised.eqx";
  match weight_at model 1 2 2, weight_at newmodel 1 2 2 with
  | Some x, Some y => if f32_eqb x y then mret tt else lift (Raise AssertionError)
  | _, _ => lift (Raise IndexError)
  end.

(** The reader as a function of the bytes of the file, and the events it
    leaves in the trace when run on file object [fd]. *)
Definition load_result (c : list byte) : result MLP :=
  let line := take_line c in
  params ← parse_header line;
  model ← make_kwargs (PRNGKey 0) params;
  deserialise_leaves model (drop (length line) c).

Definition load_events (fd : nat) (c : list byte) : list event :=
  let line := take_line c in
  EvReadline fd line ::
  match parse_header line with
  | Ok params =>
      EvMake params ::
      match make_kwargs (PRNGKey 0) params with
      | Ok _ => [EvRead fd (drop (length line) c)]
      | Raise _ => []
      end
  | Raise _ => []
  end.

End Notebook.

(** ** Vocabulary of the properties *)

(** Hyperparameters whose values [json.dumps] can encode, and
    hyperparameters one of whose values it cannot. *)
Definition representable (d : dict) : Prop :=
  Forall (fun kv => json_representable kv.2 = true) d.

Definition unrepresentable (d : dict) : Prop :=
  Exists (fun kv => json_representable kv.2 = false) d.

Fixpoint string_forall (P : ascii -> bool) (s : string) : bool :=
  match s with
  | EmptyString => true
  | String c s' => P c && string_forall P s'
  end.

(** The characters from the space to the tilde. *)
Definition printable (c : ascii) : bool :=
  let n := N_of_ascii c in ((32 <=? n) && (n <=? 126))%N.

Definition no_newline (l : list byte) : bool :=
  forallb (fun b => negb (Byte.eqb b newline_byte)) l.

(** The first line of the file: [(param_str + "\n").encode()]. *)
Definition header_bytes (s : string) : list byte :=
  str_encode (s +:+ String newline EmptyString).

(** The events of a successful run of the writer on file object [fd]. *)
Definition save_events (fd : nat) (path : string) (s : string) (model : MLP)
  : list event :=
  EvOpen fd path wb :: EvWrite fd (header_bytes s)
  :: map (fun a => EvWrite fd (leaf_bytes a)) (tree_leaves model) ++ [EvClose fd].

(** An event that is neither an open nor a close, and that concerns file
    object [fd] if it concerns one. *)
Definition event_on (fd : nat) (e : event) : bool :=
  match e with
  | EvWrite fd' _ | EvReadline fd' _ | EvRead fd' _ => Nat.eqb fd fd'
  | EvMake _ => true
  | EvOpen _ _ _ | EvClose _ => false
  end.

Definition result_map {A B} (f : A -> B) (r : result A) : result B :=
  match r with
  | Ok a => Ok (f a)
  | Raise e => Raise e
  end.

(** The shapes of the leaves of a layer and of a perceptron, in traversal
    order. *)
Definition linear_shapes (in_features out_features : nat) : list (list nat) :=
  [[out_features; in_features]; [out_features]].

Definition MLP_shapes (in_size out_size width_size depth : nat) : list (list nat) :=
  match depth with
  | O => linear_shapes in_size out_size
  | S d =>
      linear_shapes in_size width_size
      ++ flat_map (fun _ => linear_shapes width_size width_size) (seq 0 d)
      ++ linear_shapes width_size out_size
  end.

(** The structure of the model [make(key=key, **params)] builds, whatever
    the key. *)
Definition make_structure (params : dict)
  : result (list (list nat) * activation_fn) :=
  if forallb (fun kv => is_make_keyword kv.1) params then
    match dict_get "size" params, dict_get "width" params, dict_get "depth" params with
    | Some size, Some width, Some depth =>
        i ← as_size size;
        o ← as_size (PInt 1);
        w ← as_size width;
        d ← as_size depth;
        Ok (MLP_shapes i o w d,
            if py_truth (default (PBool false) (dict_get "use_tanh" params))
            then jnp_tanh else jax_nn_relu)
    | _, _, _ => Raise TypeError
    end
  else Raise TypeError.

Definition linear_wf (l : Linear) : Prop := array_wf (weight l) ∧ array_wf (bias l).

(** The value [scan_digits] has accumulated once it has read the digits of
    [n]. *)
Fixpoint push_digits (fuel : nat) (a n : N) : N :=
  match fuel with
  | O => a
  | S fuel' =>
      if (n <? 10)%N then (10 * a + n)%N
      else (10 * push_digits fuel' a (n / 10) + n mod 10)%N
  end.

(** What may follow a number: the end of the text, or a character that is
    not a digit. *)
Definition ends_number (rest : string) : Prop :=
  match rest with
  | EmptyString => True
  | String c _ => is_digit c = false
  end.

(** The text that follows a member's value in the encoder's output. *)
Definition delimiter (tail : string) : Prop :=
  ∃ r, tail = String "," r ∨ tail = String "}" r.

(** A scanner's answer on input [s]: a remainder shorter than [s], or an
    exception other than [OutOfFuel]. *)
Definition consumes {A} (s : string) (r : result (A * string)) : Prop :=
  match r with
  | Ok (_, rest) => (String.length rest < String.length s)%nat
  | Raise e => e ≠ OutOfFuel
  end.

(** ** Instances

    A random generator to run the notebook with, and a second one. *)

Definition toy_PRNGKey (seed : Z) : Z := seed.

Definition toy_split (key : Z) (n i : nat) : Z := (key * 31 + Z.of_nat i + 1)%Z.

Definition toy_uniform (key : Z) (fan i : nat) : f32 :=
  F32 (byte_of_N (N.of_nat i mod 256)) (byte_of_N (Z.to_N key mod 256))
      (byte_of_N (N.of_nat fan)) x3f.

Definition zero_uniform (key : unit) (fan i : nat) : f32 := F32 x00 x00 x00 x00.

Definition toy_make := make_kwargs toy_split toy_uniform.

Definition toy_load := load toy_PRNGKey toy_split toy_uniform.

Definition model_of (r : result MLP) : MLP :=
  match r with
  | Ok m => m
  | Raise _ => MkMLP [] jax_nn_relu
  end.

Definition empty_world : world := World ∅ ∅ [].

(** A small perceptron and the file that holds it. *)
Definition small : dict := [("size", PInt 2); ("width", PInt 1); ("depth", PInt 1)].

Definition small_model : MLP := Eval vm_compute in model_of (toy_make 7%Z small).

Definition small_file : list byte :=
  Eval vm_compute in contents (save "m.eqx" small small_model empty_world).2 "m.eqx".

Definition small_world : world := World {["m.eqx" := small_file]} ∅ [].

(** A file that a previous run left behind, and hyperparameters that hold a
    [bytes] object. *)
Definition old_world : world :=
  World {["multipart_serialised.eqx" := [x01; x02; x03]]} ∅ [].

Definition bad_params : dict :=
  [("size", PInt 5); ("width", PBytes [x31; x30]); ("depth", PInt 3)].

(** A file whose first line is not JSON. *)
Definition garbled_world : world :=
  World {["garbled.eqx" := str_encode "{oops" ++ [newline_byte; x00; x00; x80; x3f]]}
        ∅ [].

(** Two perceptrons with as many weights, thirteen, in leaves of different
    shapes. *)
Definition wide_params : dict := [("size", PInt 1); ("width", PInt 4); ("depth", PInt 1)].

Definition narrow_params : dict := [("size", PInt 4); ("width", PInt 2); ("depth", PInt 1)].

Definition narrow_model : MLP := Eval vm_compute in model_of (toy_make 7%Z narrow_params).

(** The small perceptron with one more layer: its first leaves have the
    shapes of the leaves of [small_model]. *)
Definition deep_params : dict := [("size", PInt 2); ("width", PInt 1); ("depth", PInt 2)].

Definition deep_model : MLP := Eval vm_compute in model_of (toy_make 7%Z deep_params).

(** ** More vocabulary and instances *)

(** The bytes of the whitespace of JSON: space, tab, line feed, carriage
    return. *)
Definition is_ws_byte (b : byte) : bool :=
  Byte.eqb b x20 || Byte.eqb b x09 || Byte.eqb b x0a || Byte.eqb b x0d.

(** What the writer leaves in its file. *)
Definition saved_bytes (params : dict) (model : MLP) : list byte :=
  match json_dumps params with
  | Ok s => header_bytes s ++ weight_stream model
  | Raise _ => []
  end.

(** A file whose header names one parameter of the constructor only. *)
Definition incomplete_world : world :=
  World {["incomplete.eqx" :=
            str_encode ("{" +:+ quoted "size" +:+ ": 2}") ++ [newline_byte; x00; x01]]}
        ∅ [].

(** The hyperparameters of [small] in another order. *)
Definition shuffled : dict := [("depth", PInt 1); ("size", PInt 2); ("width", PInt 1)].

(** The small perceptron after its weights have changed. *)
Definition constant_like (x : f32) (a : ndarray) : ndarray :=
  Ndarray (shape a) (map (fun _ => x) (data a)).

Definition trained_model : MLP :=
  Eval vm_compute in
    MkMLP (map (fun l => MkLinear (constant_like (F32 x2a x2a x2a x2a) (weight l))
                                  (constant_like (F32 x2a x2a x2a x2a) (bias l)))
               (layers small_model))
          (activation small_model).

(** A file whose first line is blank. *)
Definition blank_world : world :=
  World {["blank.eqx" := [x20; x0d; newline_byte; x01; x02]]} ∅ [].

(** * Properties *)

(** ** The models at work *)

Example json_dumps_hyperparameters :
  json_dumps hyperparameters =
  Ok (String "{" (String dquote ("size" +:+ String dquote (": 5, " +:+
      String dquote ("width" +:+ String dquote (": 10, " +:+
      String dquote ("depth" +:+ String dquote (": 3, " +:+
      String dquote ("use_tanh" +:+ String dquote ": true}"))))))))).
Proof. reflexivity. Qed.

Example loads_hyperparameters :
  dumps_then_loads hyperparameters = Ok hyperparameters.
Proof. reflexivity. Qed.

Example loads_escapes :
  dumps_then_loads [(String dquote (String newline "k"), PStr (String "200" "e\/"));
                    ("n", PInt (-120)); ("z", PInt 0); ("e", PNone)]
  = Ok [(String dquote (String newline "k"), PStr (String "200" "e\/"));
        ("n", PInt (-120)); ("z", PInt 0); ("e", PNone)].
Proof. reflexivity. Qed.

Example loads_malformed : json_loads "{oops" = Raise JSONDecodeError.
Proof. reflexivity. Qed.

Example loads_duplicate_key :
  json_loads ("{ " +:+ quoted "a" +:+ ": 1, " +:+ quoted "b" +:+ " :2 ,"
              +:+ quoted "a" +:+ ": 3 } ")
  = Ok [("a", PInt 3); ("b", PInt 2)].
Proof. reflexivity. Qed.

Example leaf_bytes_row :
  leaf_bytes (Ndarray [1; 2] [F32 x0a x0b x0c x0d; F32 x1a x1b x1c x1d])
  = [x01; x01; x00; x01; x00; x01; x01; x00;
     x0a; x0b; x0c; x0d; x1a; x1b; x1c; x1d].
Proof. reflexivity. Qed.

Example read_leaf_row :
  read_leaf [x01; x01; x00; x01; x00; x01; x01; x00;
             x0a; x0b; x0c; x0d; x1a; x1b; x1c; x1d; xff]
  = Ok (Ndarray [1; 2] [F32 x0a x0b x0c x0d; F32 x1a x1b x1c x1d], [xff]).
Proof. reflexivity. Qed.

Example read_leaf_truncated :
  read_leaf [x01; x01; x00; x01; x00; x01; x01; x00; x0a; x0b; x0c; x0d; x1a]
  = Raise TruncatedStream.
Proof. reflexivity. Qed.

(** ** Strings *)

Lemma append_cons (x : ascii) (a b : string) :
  String x a +:+ b = String x (a +:+ b).
Proof. reflexivity. Qed.

Lemma append_nil_l (b : string) : EmptyString +:+ b = b.
Proof. reflexivity. Qed.

Lemma append_assoc (a b c : string) : (a +:+ b) +:+ c = a +:+ (b +:+ c).
Proof.
  induction a as [|x a IH]; [reflexivity |].
  rewrite !append_cons. by f_equal.
Qed.

Lemma append_nil_r (a : string) : a +:+ EmptyString = a.
Proof.
  induction a as [|x a IH]; [reflexivity |].
  rewrite append_cons. by f_equal.
Qed.

Lemma length_append (a b : string) :
  String.length (a +:+ b) = (String.length a + String.length b)%nat.
Proof.
  induction a as [|x a IH]; [reflexivity |].
  rewrite append_cons. simpl. by f_equal.
Qed.

Lemma str_encode_append (a b : string) :
  str_encode (a +:+ b) = str_encode a ++ str_encode b.
Proof.
  induction a as [|x a IH]; [reflexivity |].
  rewrite append_cons. simpl. by rewrite IH, app_assoc.
Qed.

Ltac each_char c :=
  destruct c as [[] [] [] [] [] [] [] []].

(** Decoding undoes encoding, character by character. *)
Lemma bytes_decode_char (c : ascii) (bs : list byte) :
  bytes_decode (utf8_encode_char c ++ bs)
  = s ← bytes_decode bs; Ok (String c s).
Proof. each_char c; reflexivity. Qed.

Lemma bytes_decode_encode (s : string) : bytes_decode (str_encode s) = Ok s.
Proof.
  induction s as [|c s IH]; [reflexivity |].
  simpl str_encode. rewrite bytes_decode_char, IH. reflexivity.
Qed.

(** ** The decoder inverts the encoder *)

Lemma scanstring_escape_char (c : ascii) (t : string) :
  scanstring (escape_char c +:+ t)
  = r ← scanstring t; Ok (String c r.1, r.2).
Proof. each_char c; reflexivity. Qed.

Lemma scanstring_escape (s rest : string) :
  scanstring (escape s +:+ String dquote rest) = Ok (s, rest).
Proof.
  induction s as [|c s IH]; [reflexivity |].
  simpl escape. rewrite append_assoc, scanstring_escape_char, IH.
  reflexivity.
Qed.

Lemma is_digit_digit_char (d : N) : (d < 10)%N → is_digit (digit_char d) = true.
Proof.
  intros Hd. unfold is_digit, digit_char.
  rewrite N_ascii_embedding by lia.
  apply andb_true_intro. split; apply N.leb_le; lia.
Qed.

Lemma N_of_digit_char (d : N) : (d < 10)%N → (N_of_ascii (digit_char d) - 48 = d)%N.
Proof.
  intros Hd. unfold digit_char. rewrite N_ascii_embedding by lia. lia.
Qed.

Lemma scan_digits_digit (a d : N) (s : string) :
  (d < 10)%N →
  scan_digits a (String (digit_char d) s) = scan_digits (10 * a + d) s.
Proof.
  intros Hd. simpl. by rewrite is_digit_digit_char, N_of_digit_char.
Qed.

Lemma scan_digits_N_digits (fuel : nat) (n a : N) (acc : string) :
  scan_digits a (N_digits fuel n acc) = scan_digits (push_digits fuel a n) acc.
Proof.
  revert n acc. induction fuel as [|fuel IH]; intros n acc; [reflexivity |].
  simpl. destruct (N.ltb_spec n 10) as [Hn|Hn].
  - rewrite N.mod_small by done. by apply scan_digits_digit.
  - rewrite IH. apply scan_digits_digit. by apply N.mod_lt.
Qed.

Lemma push_digits_0 (fuel : nat) (n : N) :
  (n < 2 ^ N.of_nat fuel)%N → push_digits fuel 0 n = n.
Proof.
  revert n. induction fuel as [|fuel IH]; intros n Hn.
  - simpl in *. lia.
  - simpl. destruct (N.ltb_spec n 10) as [Hs|Hs]; [lia |].
    rewrite IH.
    + pose proof (N.div_mod n 10). lia.
    + rewrite Nat2N.inj_succ, N.pow_succ_r' in Hn.
      apply N.Div0.div_lt_upper_bound. lia.
Qed.

Lemma N_repr_fuel (n : N) : (n < 2 ^ N.of_nat (S (N.to_nat (N.log2 n))))%N.
Proof.
  rewrite Nat2N.inj_succ, N2Nat.id.
  destruct (N.eq_dec n 0%N) as [->|Hn]; [done |].
  apply N.log2_spec. lia.
Qed.

(** The first digit of a positive number is not zero. *)
Lemma N_digits_head (fuel : nat) (n : N) (acc : string) :
  (0 < n < 2 ^ N.of_nat fuel)%N →
  ∃ d t, (0 < d < 10)%N ∧ N_digits fuel n acc = String (digit_char d) t.
Proof.
  revert n acc. induction fuel as [|fuel IH]; intros n acc Hn.
  - simpl in Hn. lia.
  - simpl. destruct (N.ltb_spec n 10) as [Hs|Hs].
    + exists n, acc. rewrite N.mod_small by done. split; [lia | done].
    + apply IH. rewrite Nat2N.inj_succ, N.pow_succ_r' in Hn. split.
      * apply N.div_str_pos. lia.
      * apply N.Div0.div_lt_upper_bound. lia.
Qed.

Lemma N_digits_append (fuel : nat) (n : N) (acc rest : string) :
  N_digits fuel n acc +:+ rest = N_digits fuel n (acc +:+ rest).
Proof.
  revert n acc. induction fuel as [|fuel IH]; intros n acc; [reflexivity |].
  simpl. destruct (n <? 10)%N; [reflexivity |]. by rewrite IH.
Qed.

Lemma scan_digits_stop (a : N) (rest : string) :
  ends_number rest → scan_digits a rest = (a, rest).
Proof. destruct rest as [|c rest]; simpl; [done | by intros ->]. Qed.

Lemma scan_int_N_repr (n : N) (rest : string) :
  ends_number rest → scan_int (N_repr n +:+ rest) = Ok (n, rest).
Proof.
  intros Hrest. unfold N_repr. rewrite N_digits_append, append_nil_l.
  destruct (N.eq_dec n 0%N) as [->|Hn]; [reflexivity |].
  destruct (N_digits_head (S (N.to_nat (N.log2 n))) n rest) as (d & t & Hd & E).
  { split; [lia | apply N_repr_fuel]. }
  unfold scan_int. rewrite E.
  replace (Ascii.eqb (digit_char d) "0") with false.
  2:{ symmetry. apply Ascii.eqb_neq. intros Heq.
      apply (f_equal N_of_ascii) in Heq. unfold digit_char in Heq.
      rewrite N_ascii_embedding in Heq by lia. simpl in Heq. lia. }
  rewrite is_digit_digit_char by lia. rewrite <- E.
  rewrite scan_digits_N_digits, push_digits_0 by apply N_repr_fuel.
  by rewrite scan_digits_stop.
Qed.

Lemma scan_value_digit (c : ascii) (t : string) :
  is_digit c = true → scan_value (String c t) = scan_number false (String c t).
Proof. each_char c; intros H; try discriminate H; reflexivity. Qed.

Lemma is_digit_not_ws (c : ascii) : is_digit c = true → is_ws c = false.
Proof. each_char c; intros H; try discriminate H; reflexivity. Qed.

Lemma is_digit_not_I (c : ascii) : is_digit c = true → Ascii.eqb c "I" = false.
Proof. each_char c; intros H; try discriminate H; reflexivity. Qed.

Lemma N_repr_head (n : N) (rest : string) :
  ∃ c t, is_digit c = true ∧ N_repr n +:+ rest = String c t.
Proof.
  destruct (N.eq_dec n 0%N) as [->|Hn].
  - exists "0"%char, rest. done.
  - unfold N_repr. rewrite N_digits_append.
    destruct (N_digits_head (S (N.to_nat (N.log2 n))) n (EmptyString +:+ rest))
      as (d & t & Hd & E).
    { split; [lia | apply N_repr_fuel]. }
    exists (digit_char d), t. split; [apply is_digit_digit_char; lia | done].
Qed.

Lemma delimiter_ends_number (tail : string) : delimiter tail → ends_number tail.
Proof. by intros [r [-> | ->]]. Qed.

Lemma delimiter_not_fraction (tail : string) :
  delimiter tail → starts_fraction tail = false.
Proof. by intros [r [-> | ->]]. Qed.

Lemma scan_number_N_repr (neg : bool) (n : N) (tail : string) :
  delimiter tail →
  scan_number neg (N_repr n +:+ tail)
  = Ok (PInt (if neg then - Z.of_N n else Z.of_N n), tail).
Proof.
  intros Ht. unfold scan_number.
  rewrite scan_int_N_repr by by apply delimiter_ends_number.
  simpl. by rewrite delimiter_not_fraction.
Qed.

Lemma scan_value_encode (v : pyval) (ev tail : string) :
  encode_value v = Ok ev → delimiter tail →
  scan_value (ev +:+ tail) = Ok (v, tail).
Proof.
  intros Hv Ht. destruct v as [|[]|z|s|bs]; simplify_eq/=; try reflexivity.
  - unfold int_repr. destruct (Z.ltb_spec z 0) as [Hz|Hz].
    + rewrite append_cons.
      destruct (N_repr_head (Z.abs_N z) tail) as (c & t & Hc & E).
      unfold scan_value.
      change (Ascii.eqb "-" dquote) with false.
      change (Ascii.eqb "-" "n") with false.
      change (Ascii.eqb "-" "t") with false.
      change (Ascii.eqb "-" "f") with false.
      change (Ascii.eqb "-" "-") with true. cbv iota.
      rewrite E. unfold starts_with. rewrite is_digit_not_I by done.
      rewrite <- E, scan_number_N_repr by done.
      do 3 f_equal. lia.
    + destruct (N_repr_head (Z.abs_N z) tail) as (c & t & Hc & E).
      rewrite E, scan_value_digit by done.
      rewrite <- E, scan_number_N_repr by done.
      do 3 f_equal. lia.
  - rewrite append_assoc, append_cons, append_nil_l, scanstring_escape.
    reflexivity.
Qed.

Lemma skip_ws_encode (v : pyval) (ev tail : string) :
  encode_value v = Ok ev → skip_ws (ev +:+ tail) = ev +:+ tail.
Proof.
  intros Hv. destruct v as [|[]|z|s|bs]; simplify_eq/=; try reflexivity.
  unfold int_repr. destruct (z <? 0)%Z; [reflexivity |].
  destruct (N_repr_head (Z.abs_N z) tail) as (c & t & Hc & ->).
  simpl. by rewrite is_digit_not_ws.
Qed.

Lemma encode_item_shape (kv : string * pyval) (i : string) :
  encode_item kv = Ok i →
  ∃ ev, encode_value kv.2 = Ok ev ∧
    ∀ X, i +:+ X
         = String dquote (escape kv.1 +:+
             String dquote (String ":" (String " " (ev +:+ X)))).
Proof.
  unfold encode_item. destruct (encode_value kv.2) as [ev|e] eqn:Hv; [|done].
  intros [= <-]. exists ev. split; [done |]. intros X.
  unfold py_encode_basestring_ascii.
  by rewrite !append_assoc, !append_cons, !append_assoc, !append_cons, !append_nil_l.
Qed.

Lemma scan_member (f : nat) (k : string) (v : pyval) (ev tail : string)
    (pairs : list (string * pyval)) :
  encode_value v = Ok ev → delimiter tail →
  scan_members (S f)
    (escape k +:+ String dquote (String ":" (String " " (ev +:+ tail)))) pairs
  = match tail with
    | String c s5 =>
        if Ascii.eqb c "}" then Ok (pairs ++ [(k, v)], s5)
        else match skip_ws s5 with
             | String q s6 =>
                 if Ascii.eqb q dquote then scan_members f s6 (pairs ++ [(k, v)])
                 else Raise JSONDecodeError
             | EmptyString => Raise JSONDecodeError
             end
    | EmptyString => Raise JSONDecodeError
    end.
Proof.
  intros Hv Ht. cbn [scan_members]. rewrite scanstring_escape.
  cbn [mbind result_mbind result_bind fst snd].
  change (skip_ws (String ":" (String " " (ev +:+ tail))))
    with (String ":" (String " " (ev +:+ tail))).
  cbv iota.
  change (skip_ws (String " " (ev +:+ tail))) with (skip_ws (ev +:+ tail)).
  rewrite (skip_ws_encode v) by done.
  rewrite (scan_value_encode v) by done.
  cbn [mbind result_mbind result_bind fst snd].
  destruct Ht as [r [-> | ->]]; reflexivity.
Qed.

Lemma encode_items_cons (kv kv2 : string * pyval) (d : dict) :
  encode_items (kv :: kv2 :: d)
  = i ← encode_item kv; r ← encode_items (kv2 :: d); Ok (i +:+ ", " +:+ r).
Proof. reflexivity. Qed.

Lemma scan_members_encode (d : dict) :
  ∀ kv s fuel pairs rest,
    encode_items (kv :: d) = Ok s → (length d < fuel)%nat →
    ∃ s0, s = String dquote s0 ∧
      scan_members fuel (s0 +:+ String "}" rest) pairs = Ok (pairs ++ kv :: d, rest).
Proof.
  induction d as [|kv2 d IH]; intros kv s fuel pairs rest Hs Hfuel.
  - destruct fuel as [|f]; [simpl in Hfuel; lia |].
    destruct (encode_item_shape kv s Hs) as (ev & Hv & Hshape).
    destruct s as [|c s0].
    { specialize (Hshape EmptyString). discriminate Hshape. }
    pose proof (Hshape (String "}" rest)) as E.
    rewrite append_cons in E. injection E as -> E.
    exists s0. split; [done |]. rewrite E.
    rewrite (scan_member f _ kv.2 ev) by (done || by eexists; right).
    by destruct kv.
  - destruct fuel as [|f]; [simpl in Hfuel; lia |].
    rewrite encode_items_cons in Hs.
    destruct (encode_item kv) as [i|] eqn:Hi; [|done].
    destruct (encode_items (kv2 :: d)) as [r|] eqn:Hr; [|done].
    cbn in Hs. injection Hs as <-.
    destruct (encode_item_shape kv i Hi) as (ev & Hv & Hshape).
    destruct (IH kv2 r f (pairs ++ [kv]) rest Hr) as (r0 & -> & Hrec).
    { simpl in Hfuel. lia. }
    destruct i as [|c i0].
    { specialize (Hshape EmptyString). discriminate Hshape. }
    pose proof (Hshape (", " +:+ String dquote r0 +:+ String "}" rest)) as E.
    rewrite append_cons in E. injection E as -> E.
    exists (i0 +:+ ", " +:+ String dquote r0). split; [by rewrite append_cons |].
    rewrite !append_assoc, E.
    rewrite (scan_member f _ kv.2 ev) by (done || by eexists; left).
    rewrite !append_cons, append_nil_l.
    change (skip_ws (String " " (String dquote (r0 +:+ String "}" rest))))
      with (String dquote (r0 +:+ String "}" rest)).
    cbn [Ascii.eqb Bool.eqb]. change (Ascii.eqb dquote dquote) with true. cbv iota.
    destruct kv. cbn [fst snd]. by rewrite Hrec, <- app_assoc.
Qed.

Lemma encode_items_length (d : dict) :
  ∀ kv s, encode_items (kv :: d) = Ok s → (length d < String.length s)%nat.
Proof.
  induction d as [|kv2 d IH]; intros kv s Hs.
  - destruct (encode_item_shape kv s Hs) as (ev & Hv & Hshape).
    specialize (Hshape EmptyString). rewrite append_nil_r in Hshape.
    rewrite Hshape. simpl. lia.
  - rewrite encode_items_cons in Hs.
    destruct (encode_item kv) as [i|] eqn:Hi; [|done].
    destruct (encode_items (kv2 :: d)) as [r|] eqn:Hr; [|done].
    cbn in Hs. injection Hs as <-.
    apply IH in Hr. rewrite !length_append. simpl in *. lia.
Qed.

Lemma dict_set_fresh (k : string) (v : pyval) (d : dict) :
  k ∉ map fst d → dict_set k v d = d ++ [(k, v)].
Proof.
  induction d as [|[k' v'] d IH]; intros Hk; [reflexivity |].
  simpl in *. apply not_elem_of_cons in Hk as [Hne Hk].
  destruct (String.eqb_spec k k') as [->|_]; [done |].
  by rewrite IH.
Qed.

Lemma fold_dict_set (d acc : dict) :
  NoDup (map fst (acc ++ d)) →
  fold_left (fun d kv => dict_set kv.1 kv.2 d) d acc = acc ++ d.
Proof.
  revert acc. induction d as [|[k v] d IH]; intros acc Hnd.
  - by rewrite app_nil_r.
  - simpl. rewrite dict_set_fresh.
    + rewrite IH; rewrite <- app_assoc; done.
    + rewrite map_app in Hnd. apply NoDup_app in Hnd as (_ & Hdisj & _).
      intros Hin. apply (Hdisj k Hin). simpl. left.
Qed.

Lemma dict_of_pairs_wf (d : dict) : dict_wf d → dict_of_pairs d = d.
Proof. intros Hd. unfold dict_of_pairs. by rewrite fold_dict_set. Qed.

(** Decoding the encoder's output, followed by any whitespace, gives the
    dictionary back. *)
Lemma json_loads_dumps (d : dict) (s t : string) :
  dict_wf d → json_dumps d = Ok s → skip_ws t = EmptyString →
  json_loads (s +:+ t) = Ok d.
Proof.
  intros Hd Hs Ht. unfold json_dumps in Hs.
  destruct (encode_items d) as [r|] eqn:Hr; [|done].
  cbn in Hs. injection Hs as <-.
  rewrite !append_assoc, !append_cons, !append_nil_l.
  unfold json_loads.
  change (skip_ws (String "{" (r +:+ String "}" t)))
    with (String "{" (r +:+ String "}" t)).
  cbv beta iota. change (Ascii.eqb "{" "{") with true. cbv iota.
  destruct d as [|kv d].
  - simpl in Hr. injection Hr as <-. rewrite append_nil_l.
    unfold scan_object.
    change (skip_ws (String "}" t)) with (String "}" t).
    cbv beta iota. change (Ascii.eqb "}" "}") with true.
    cbn [mbind result_mbind result_bind fst snd]. by rewrite Ht.
  - pose proof (encode_items_length d kv r Hr) as Hlen.
    destruct (scan_members_encode d kv r
                (S (String.length (match r with String _ s0 => s0 +:+ String "}" t | _ => r end)))
                [] t Hr) as (s0 & -> & Hrec).
    { destruct r; [simpl in Hlen; lia |].
      rewrite length_append. simpl in *. lia. }
    rewrite append_cons. unfold scan_object.
    change (skip_ws (String dquote (s0 +:+ String "}" t)))
      with (String dquote (s0 +:+ String "}" t)).
    cbv beta iota.
    change (Ascii.eqb dquote "}") with false.
    change (Ascii.eqb dquote dquote) with true. cbv iota.
    rewrite Hrec. cbn [mbind result_mbind result_bind fst snd app].
    rewrite Ht. by rewrite dict_of_pairs_wf.
Qed.

(** ** The decoder never runs out of fuel *)

Lemma consumes_bind {A B} (s t : string) (r : result (A * string))
    (f : A -> B) :
  consumes t r → (String.length t ≤ String.length s)%nat →
  consumes s (x ← r; Ok (f x.1, x.2)).
Proof. destruct r as [[a rest]|e]; simpl; [lia | done]. Qed.

Lemma scanstring_consumes (s : string) : consumes s (scanstring s).
Proof.
  remember (String.length s) as n eqn:Hn. revert s Hn.
  induction n as [n IH] using lt_wf_ind. intros s ->.
  destruct s as [|c s]; [done |]. cbn [scanstring].
  destruct (Ascii.eqb c dquote); [simpl; lia |].
  destruct (Ascii.eqb c backslash).
  - destruct s as [|e s]; [done |].
    destruct (Ascii.eqb e "u").
    + destruct s as [|h1 [|h2 [|h3 [|h4 t]]]]; try done.
      destruct (hex_value h1), (hex_value h2), (hex_value h3), (hex_value h4);
        try done.
      match goal with |- context [if ?b then _ else _] => destruct b end; [|done].
      apply (consumes_bind _ t); [| simpl; lia].
      apply (IH (String.length t)); [simpl; lia | done].
    + destruct (unescape e); [|done].
      apply (consumes_bind _ s); [| simpl; lia].
      apply (IH (String.length s)); [simpl; lia | done].
  - destruct (N_of_ascii c <? 32)%N; [done |].
    apply (consumes_bind _ s); [| simpl; lia].
    apply (IH (String.length s)); [simpl; lia | done].
Qed.

Lemma skip_ws_length (s : string) :
  (String.length (skip_ws s) ≤ String.length s)%nat.
Proof.
  induction s as [|c s IH]; [done |]. simpl.
  destruct (is_ws c); simpl; lia.
Qed.

Lemma scan_digits_length (a : N) (s : string) :
  (String.length (scan_digits a s).2 ≤ String.length s)%nat.
Proof.
  revert a. induction s as [|c s IH]; intros a; [done |]. simpl.
  destruct (is_digit c); [| simpl; lia].
  specialize (IH (10 * a + (N_of_ascii c - 48))%N). lia.
Qed.

Lemma scan_number_consumes (neg : bool) (c : ascii) (s : string) :
  consumes (String c s) (scan_number neg (String c s)).
Proof.
  unfold scan_number, scan_int.
  destruct (Ascii.eqb c "0").
  - cbn [mbind result_mbind result_bind snd fst].
    destruct (starts_fraction s); [done | simpl; lia].
  - destruct (is_digit c) eqn:Hc; [|done].
    pose proof (scan_digits_length 0 (String c s)) as Hlen.
    cbn [scan_digits] in *. rewrite Hc in *.
    cbn [mbind result_mbind result_bind snd fst].
    destruct (starts_fraction _); [done |].
    cbn [consumes snd].
    pose proof (scan_digits_length (10 * 0 + (N_of_ascii c - 48)) s).
    simpl. lia.
Qed.

Lemma strip_prefix_length (p s r : string) :
  strip_prefix p s = Some r →
  (String.length r + String.length p = String.length s)%nat.
Proof.
  revert s. induction p as [|a p IH]; intros [|b s] H; simplify_eq/=; try done.
  destruct (Ascii.eqb a b); [|done]. apply IH in H. lia.
Qed.

Lemma scan_literal_consumes (lit : string) (v : pyval) (s : string) :
  (0 < String.length lit)%nat → consumes s (scan_literal lit v s).
Proof.
  intros Hlit. unfold scan_literal.
  destruct (strip_prefix lit s) as [r|] eqn:Hr; [|done].
  apply strip_prefix_length in Hr. simpl. lia.
Qed.

Lemma scan_value_consumes (s : string) : consumes s (scan_value s).
Proof.
  destruct s as [|c s]; [done |]. unfold scan_value.
  destruct (Ascii.eqb c dquote).
  { apply (consumes_bind _ s); [apply scanstring_consumes | simpl; lia]. }
  destruct (Ascii.eqb c "n"); [apply scan_literal_consumes; simpl; lia |].
  destruct (Ascii.eqb c "t"); [apply scan_literal_consumes; simpl; lia |].
  destruct (Ascii.eqb c "f"); [apply scan_literal_consumes; simpl; lia |].
  destruct (Ascii.eqb c "-").
  { destruct (starts_with "I" s); [done |].
    destruct s as [|d s]; [done |].
    pose proof (scan_number_consumes true d s) as H.
    destruct (scan_number true (String d s)) as [[v r]|e]; simpl in *; [lia | done]. }
  destruct (is_digit c); [apply scan_number_consumes |].
  by destruct (_ || _).
Qed.

Lemma scan_members_consumes (fuel : nat) :
  ∀ (s : string) (pairs : list (string * pyval)),
    (String.length s < fuel)%nat → consumes s (scan_members fuel s pairs).
Proof.
  induction fuel as [|fuel IH]; intros s pairs Hfuel; [lia |].
  cbn [scan_members].
  pose proof (scanstring_consumes s) as Hk.
  destruct (scanstring s) as [[k s1]|e]; [|done].
  cbn [mbind result_mbind result_bind fst snd consumes] in *.
  pose proof (skip_ws_length s1) as H1.
  destruct (skip_ws s1) as [|c s3]; [done |].
  destruct (Ascii.eqb_spec c ":") as [->|Hne].
  2:{ each_char c; done. }
  pose proof (skip_ws_length s3) as H3.
  pose proof (scan_value_consumes (skip_ws s3)) as Hv.
  destruct (scan_value (skip_ws s3)) as [[v s4]|e]; [|done].
  cbn [mbind result_mbind result_bind fst snd consumes] in *.
  pose proof (skip_ws_length s4) as H4.
  destruct (skip_ws s4) as [|d s5]; [done |].
  destruct (Ascii.eqb d "}"); [simpl in *; lia |].
  destruct (Ascii.eqb d ","); [|done].
  pose proof (skip_ws_length s5) as H5.
  destruct (skip_ws s5) as [|q0 s6]; [done |].
  destruct (Ascii.eqb q0 dquote); [|done].
  specialize (IH s6 (pairs ++ [(k, v)])).
  destruct (scan_members fuel s6 (pairs ++ [(k, v)])) as [[p r]|e];
    simpl in *; [| apply IH]; lia.
Qed.

(** [json_loads] gives its member loop enough fuel. *)
Lemma json_loads_fuel (s : string) : json_loads s ≠ Raise OutOfFuel.
Proof.
  unfold json_loads. destruct (skip_ws s) as [|c s']; [done |].
  destruct (Ascii.eqb c "{").
  2:{ by destruct (starts_other_value c). }
  unfold scan_object. destruct (skip_ws s') as [|d s'']; [done |].
  destruct (Ascii.eqb d "}").
  { cbn [mbind result_mbind result_bind fst snd]. by destruct (skip_ws s''). }
  destruct (Ascii.eqb d dquote); [|done].
  pose proof (scan_members_consumes (S (String.length s'')) s'' []) as H.
  destruct (scan_members (S (String.length s'')) s'' []) as [[p r]|e].
  - cbn [mbind result_mbind result_bind fst snd]. by destruct (skip_ws r).
  - cbn [mbind result_mbind result_bind]. intros [= ->]. apply H; [lia | done].
Qed.

(** ** The encoder's output is printable ASCII *)

Lemma string_forall_append (P : ascii -> bool) (a b : string) :
  string_forall P (a +:+ b) = string_forall P a && string_forall P b.
Proof.
  induction a as [|x a IH]; [reflexivity |].
  rewrite append_cons. simpl. by rewrite IH, andb_assoc.
Qed.

Lemma printable_escape_char (c : ascii) :
  string_forall printable (escape_char c) = true.
Proof. each_char c; reflexivity. Qed.

Lemma printable_escape (s : string) : string_forall printable (escape s) = true.
Proof.
  induction s as [|c s IH]; [reflexivity |].
  simpl. by rewrite string_forall_append, printable_escape_char, IH.
Qed.

Lemma printable_quoted (s : string) :
  string_forall printable (py_encode_basestring_ascii s) = true.
Proof.
  unfold py_encode_basestring_ascii. simpl.
  by rewrite string_forall_append, printable_escape.
Qed.

Lemma printable_digit (c : ascii) : is_digit c = true → printable c = true.
Proof. each_char c; intros H; try discriminate H; reflexivity. Qed.

Lemma printable_N_digits (fuel : nat) (n : N) (acc : string) :
  string_forall printable acc = true →
  string_forall printable (N_digits fuel n acc) = true.
Proof.
  revert n acc. induction fuel as [|fuel IH]; intros n acc Hacc; [done |].
  assert (string_forall printable (String (digit_char (n mod 10)) acc) = true) as H.
  { simpl. rewrite Hacc, printable_digit; [done |].
    apply is_digit_digit_char. by apply N.mod_lt. }
  simpl. destruct (n <? 10)%N; [done | by apply IH].
Qed.

Lemma printable_int_repr (z : Z) : string_forall printable (int_repr z) = true.
Proof.
  unfold int_repr, N_repr. destruct (z <? 0)%Z.
  - cbn [string_forall]. by rewrite printable_N_digits.
  - by apply printable_N_digits.
Qed.

Lemma printable_encode_value (v : pyval) (ev : string) :
  encode_value v = Ok ev → string_forall printable ev = true.
Proof.
  destruct v as [|[]|z|s|bs]; intros; simplify_eq/=; try reflexivity.
  - apply printable_int_repr.
  - apply (printable_quoted s).
Qed.

Lemma printable_encode_item (kv : string * pyval) (i : string) :
  encode_item kv = Ok i → string_forall printable i = true.
Proof.
  unfold encode_item. destruct (encode_value kv.2) as [ev|] eqn:Hv; [|done].
  intros [= <-]. rewrite !string_forall_append, printable_quoted.
  by rewrite (printable_encode_value _ _ Hv).
Qed.

Lemma printable_encode_items (d : dict) (s : string) :
  encode_items d = Ok s → string_forall printable s = true.
Proof.
  revert s. induction d as [|kv d IH]; intros s Hs.
  - by injection Hs as <-.
  - destruct d as [|kv2 d]; [by apply (printable_encode_item kv) |].
    rewrite encode_items_cons in Hs.
    destruct (encode_item kv) as [i|] eqn:Hi; [|done].
    destruct (encode_items (kv2 :: d)) as [r|] eqn:Hr; [|done].
    cbn in Hs. injection Hs as <-.
    rewrite !string_forall_append, (printable_encode_item _ _ Hi), (IH r) by done.
    reflexivity.
Qed.

Lemma printable_json_dumps (d : dict) (s : string) :
  json_dumps d = Ok s → string_forall printable s = true.
Proof.
  unfold json_dumps. destruct (encode_items d) as [r|] eqn:Hr; [|done].
  intros [= <-]. rewrite !string_forall_append.
  by rewrite (printable_encode_items _ _ Hr).
Qed.

(** Printable text holds no newline byte once encoded. *)
Lemma printable_char_bytes (c : ascii) :
  printable c = true →
  forallb (fun b => negb (Byte.eqb b newline_byte)) (utf8_encode_char c) = true.
Proof. each_char c; intros H; try discriminate H; reflexivity. Qed.

Lemma printable_no_newline (s : string) :
  string_forall printable s = true →
  forallb (fun b => negb (Byte.eqb b newline_byte)) (str_encode s) = true.
Proof.
  induction s as [|c s IH]; [done |]. simpl.
  intros [Hc Hs]%andb_prop. rewrite forallb_app.
  by rewrite printable_char_bytes, IH.
Qed.

Lemma take_line_app (l rest : list byte) :
  forallb (fun b => negb (Byte.eqb b newline_byte)) l = true →
  take_line (l ++ newline_byte :: rest) = l ++ [newline_byte].
Proof.
  induction l as [|b l IH]; [done |]. simpl.
  intros [Hb Hl]%andb_prop. apply negb_true_iff in Hb. rewrite Hb.
  by rewrite IH.
Qed.

Lemma str_encode_line (s : string) :
  str_encode (s +:+ String newline EmptyString) = str_encode s ++ [newline_byte].
Proof. by rewrite str_encode_append. Qed.

Lemma parse_header_dumps (d : dict) (s : string) :
  dict_wf d → json_dumps d = Ok s →
  parse_header (str_encode (s +:+ String newline EmptyString)) = Ok d.
Proof.
  intros Hd Hs. unfold parse_header. rewrite bytes_decode_encode.
  cbn [mbind result_mbind result_bind]. by apply json_loads_dumps.
Qed.

(** ** Leaves and streams *)

Lemma f32_eqb_refl (x : f32) : f32_eqb x x = true.
Proof.
  unfold f32_eqb.
  assert (∀ b, Byte.eqb b b = true) as H by (intros b; by apply Byte.byte_dec_lb).
  by rewrite !H.
Qed.

Lemma f32s_of_bytes_app (l : list f32) (rest : list byte) :
  (length rest < 4)%nat → f32s_of_bytes (flat_map f32_bytes l ++ rest) = l.
Proof.
  intros Hrest. induction l as [|[a b c d] l IH].
  - destruct rest as [|? [|? [|? [|? ?]]]]; simpl in *; done || lia.
  - simpl. by rewrite IH.
Qed.

Lemma f32s_of_bytes_flat (l : list f32) : f32s_of_bytes (flat_map f32_bytes l) = l.
Proof. rewrite <- (app_nil_r (flat_map _ _)). apply f32s_of_bytes_app. simpl. lia. Qed.

Lemma flat_f32s_of_bytes (k : nat) (bs : list byte) :
  length bs = (4 * k)%nat → flat_map f32_bytes (f32s_of_bytes bs) = bs.
Proof.
  revert bs. induction k as [|k IH]; intros bs Hlen.
  - by destruct bs.
  - destruct bs as [|a [|b [|c [|d bs]]]]; simpl in Hlen; try lia.
    simpl. rewrite IH; [done | lia].
Qed.

Lemma length_f32s_of_bytes (k : nat) (bs : list byte) :
  length bs = (4 * k)%nat → length (f32s_of_bytes bs) = k.
Proof.
  revert bs. induction k as [|k IH]; intros bs Hlen.
  - by destruct bs.
  - destruct bs as [|a [|b [|c [|d bs]]]]; simpl in Hlen; try lia.
    simpl. rewrite IH; [done | lia].
Qed.

Lemma length_flat_f32_bytes (l : list f32) :
  length (flat_map f32_bytes l) = (4 * length l)%nat.
Proof. induction l as [|x l IH]; [done |]. simpl. rewrite IH. lia. Qed.

(** The header of a leaf is read back as it was written, and what is read
    as a header was written as one. *)
Lemma scan_nat_bytes (n : nat) (rest : list byte) :
  scan_nat (nat_bytes n ++ rest) = Ok (n, rest).
Proof.
  unfold nat_bytes. induction n as [|n IH]; [done |].
  cbn [repeat app scan_nat]. change (Byte.eqb x01 x00) with false.
  change (Byte.eqb x01 x01) with true. cbv beta iota.
  by rewrite IH.
Qed.

Lemma scan_nat_Ok (bs : list byte) (n : nat) (rest : list byte) :
  scan_nat bs = Ok (n, rest) → bs = nat_bytes n ++ rest.
Proof.
  revert n. induction bs as [|b bs IH]; intros n; [done |].
  cbn [scan_nat]. destruct (Byte.eqb b x00) eqn:E0.
  - intros [= <- <-]. apply Byte.byte_dec_bl in E0. by subst b.
  - destruct (Byte.eqb b x01) eqn:E1; [| done].
    destruct (scan_nat bs) as [[k r]|e]; cbn [mbind result_mbind result_bind];
      [| done].
    intros [= <- <-]. apply Byte.byte_dec_bl in E1. subst b.
    by rewrite (IH k eq_refl).
Qed.

Lemma scan_dims_bytes (sh : list nat) (rest : list byte) :
  scan_dims (length sh) (flat_map nat_bytes sh ++ rest) = Ok (sh, rest).
Proof.
  induction sh as [|d sh IH]; [done |].
  cbn [length scan_dims flat_map]. rewrite <- app_assoc, scan_nat_bytes.
  cbn [mbind result_mbind result_bind fst snd]. by rewrite IH.
Qed.

Lemma scan_dims_Ok (k : nat) (bs : list byte) (sh : list nat) (rest : list byte) :
  scan_dims k bs = Ok (sh, rest) →
  bs = flat_map nat_bytes sh ++ rest ∧ length sh = k.
Proof.
  revert bs sh. induction k as [|k IH]; intros bs sh.
  - by intros [= <- <-].
  - cbn [scan_dims]. destruct (scan_nat bs) as [[d r]|e] eqn:Hd;
      cbn [mbind result_mbind result_bind fst snd]; [| done].
    destruct (scan_dims k r) as [[sh' r']|e] eqn:Hr;
      cbn [mbind result_mbind result_bind fst snd]; [| done].
    intros [= <- <-]. apply scan_nat_Ok in Hd as ->.
    apply IH in Hr as [-> <-]. cbn [flat_map]. by rewrite <- app_assoc.
Qed.

Lemma scan_shape_bytes (sh : list nat) (rest : list byte) :
  scan_shape (shape_bytes sh ++ rest) = Ok (sh, rest).
Proof.
  unfold scan_shape, shape_bytes. rewrite <- app_assoc, scan_nat_bytes.
  cbn [mbind result_mbind result_bind fst snd]. apply scan_dims_bytes.
Qed.

Lemma scan_shape_Ok (bs : list byte) (sh : list nat) (rest : list byte) :
  scan_shape bs = Ok (sh, rest) → bs = shape_bytes sh ++ rest.
Proof.
  unfold scan_shape, shape_bytes.
  destruct (scan_nat bs) as [[k r]|e] eqn:Hk;
    cbn [mbind result_mbind result_bind fst snd]; [| done].
  intros H. apply scan_nat_Ok in Hk as ->.
  apply scan_dims_Ok in H as [-> <-]. by rewrite <- app_assoc.
Qed.

Lemma leaf_size_wf (a : ndarray) : array_wf a → length (leaf_bytes a) = leaf_size a.
Proof.
  intros Ha. unfold leaf_bytes, leaf_size.
  by rewrite length_app, length_flat_f32_bytes, Ha.
Qed.

(** A leaf is read back as it was written, and leaves the rest of the
    stream. *)
Lemma read_leaf_bytes (a : ndarray) (rest : list byte) :
  array_wf a → read_leaf (leaf_bytes a ++ rest) = Ok (a, rest).
Proof.
  intros Ha. unfold read_leaf, leaf_bytes.
  rewrite <- app_assoc, scan_shape_bytes.
  cbn [mbind result_mbind result_bind fst snd].
  assert (4 * numel (shape a) = length (flat_map f32_bytes (data a)))%nat as ->.
  { by rewrite length_flat_f32_bytes, Ha. }
  destruct (Nat.ltb_spec (length (flat_map f32_bytes (data a) ++ rest))
              (length (flat_map f32_bytes (data a)))) as [Hlt|_].
  { rewrite length_app in Hlt. lia. }
  rewrite take_app_length, drop_app_length, f32s_of_bytes_flat.
  by destruct a.
Qed.

(** What is read as a leaf is a well-formed array, and its bytes are the
    bytes that were consumed. *)
Lemma read_leaf_Ok (bs : list byte) (a : ndarray) (rest : list byte) :
  read_leaf bs = Ok (a, rest) → bs = leaf_bytes a ++ rest ∧ array_wf a.
Proof.
  unfold read_leaf.
  destruct (scan_shape bs) as [[sh r]|e] eqn:Hsh;
    cbn [mbind result_mbind result_bind fst snd]; [| done].
  remember (4 * numel sh)%nat as n eqn:Hn.
  destruct (Nat.ltb_spec (length r) n) as [|Hle]; [done |].
  intros [= <- <-]. apply scan_shape_Ok in Hsh as ->.
  unfold leaf_bytes, array_wf. cbn [shape data].
  assert (length (take n r) = (4 * numel sh)%nat) as Hlen.
  { rewrite length_take. lia. }
  rewrite (flat_f32s_of_bytes _ _ Hlen), (length_f32s_of_bytes _ _ Hlen).
  by rewrite <- app_assoc, take_drop.
Qed.

Lemma leaf_bytes_cons (a : ndarray) : ∃ b bs, leaf_bytes a = b :: bs.
Proof.
  unfold leaf_bytes, shape_bytes, nat_bytes.
  destruct (length (shape a)); cbn [repeat app]; eauto.
Qed.

Lemma length_layer_leaves (ls : list Linear) :
  length (layer_leaves ls) = (2 * length ls)%nat.
Proof. induction ls as [|l ls IH]; [done |]. simpl. rewrite IH. lia. Qed.

(** Reading the stream of the layers [ls] with a skeleton of no more
    layers gives the first layers of [ls] and leaves the stream of the
    others. *)
Lemma read_layers_prefix (like ls : list Linear) (rest : list byte) :
  Forall array_wf (layer_leaves ls) → (length like ≤ length ls)%nat →
  read_layers like (flat_map leaf_bytes (layer_leaves ls) ++ rest)
  = Ok (take (length like) ls,
        flat_map leaf_bytes (layer_leaves (drop (length like) ls)) ++ rest).
Proof.
  revert ls. induction like as [|l like IH]; intros ls Hwf Hlen.
  - by rewrite drop_0.
  - destruct ls as [|[w b] ls]; [simpl in Hlen; lia |].
    simpl in Hwf. apply Forall_cons in Hwf as [Hww Hwf].
    apply Forall_cons in Hwf as [Hwb Hwf].
    cbn [read_layers layer_leaves flat_map linear_leaves weight bias app length
         take drop].
    unfold read_linear. rewrite <- !app_assoc.
    rewrite (read_leaf_bytes w) by done.
    cbn [mbind result_mbind result_bind fst snd].
    rewrite (read_leaf_bytes b) by done.
    cbn [mbind result_mbind result_bind fst snd].
    fold (layer_leaves ls). rewrite IH by (done || simpl in Hlen; lia).
    done.
Qed.

(** With a skeleton of more layers the stream ends too early. *)
Lemma read_layers_short (like ls : list Linear) :
  Forall array_wf (layer_leaves ls) → (length ls < length like)%nat →
  read_layers like (flat_map leaf_bytes (layer_leaves ls)) = Raise TruncatedStream.
Proof.
  revert ls. induction like as [|l like IH]; intros ls Hwf Hlen;
    [simpl in Hlen; lia |].
  destruct ls as [|[w b] ls]; [done |].
  simpl in Hwf. apply Forall_cons in Hwf as [Hww Hwf].
  apply Forall_cons in Hwf as [Hwb Hwf].
  cbn [read_layers layer_leaves flat_map linear_leaves weight bias app].
  unfold read_linear. rewrite <- ?app_assoc.
  rewrite (read_leaf_bytes w) by done.
  cbn [mbind result_mbind result_bind fst snd].
  rewrite (read_leaf_bytes b) by done.
  cbn [mbind result_mbind result_bind fst snd].
  fold (layer_leaves ls). rewrite IH by (done || simpl in Hlen; lia).
  done.
Qed.

(** What is read is as many well-formed layers as the skeleton has, and
    their bytes are the bytes that were consumed. *)
Lemma read_layers_Ok (like : list Linear) (bs : list byte)
    (ls : list Linear) (rest : list byte) :
  read_layers like bs = Ok (ls, rest) →
  bs = flat_map leaf_bytes (layer_leaves ls) ++ rest
  ∧ Forall array_wf (layer_leaves ls) ∧ length ls = length like.
Proof.
  revert bs ls. induction like as [|l like IH]; intros bs ls.
  - by intros [= <- <-].
  - cbn [read_layers]. unfold read_linear.
    destruct (read_leaf bs) as [[w r1]|e] eqn:Hw;
      cbn [mbind result_mbind result_bind fst snd]; [| done].
    destruct (read_leaf r1) as [[b r2]|e] eqn:Hb;
      cbn [mbind result_mbind result_bind fst snd]; [| done].
    destruct (read_layers like r2) as [[ls' r3]|e] eqn:Hr;
      cbn [mbind result_mbind result_bind fst snd]; [| done].
    intros [= <- <-].
    apply read_leaf_Ok in Hw as [-> Hww]. apply read_leaf_Ok in Hb as [-> Hwb].
    apply IH in Hr as (-> & Hwf & Hlen).
    cbn [layer_leaves flat_map linear_leaves weight bias app length].
    fold (layer_leaves ls').
    rewrite <- (app_assoc (leaf_bytes w)), <- (app_assoc (leaf_bytes b)).
    split; [reflexivity |]. split; [| by rewrite Hlen].
    apply Forall_cons. split; [exact Hww |].
    apply Forall_cons. split; [exact Hwb | exact Hwf].
Qed.

(** The skeleton tells the reader how many layers to read, and no more. *)
Lemma read_layers_length (l1 l2 : list Linear) (bs : list byte) :
  length l1 = length l2 → read_layers l1 bs = read_layers l2 bs.
Proof.
  revert l2 bs. induction l1 as [|x l1 IH]; intros [|y l2] bs H; try done.
  cbn [read_layers]. destruct (read_linear bs) as [[l r]|e];
    cbn [mbind result_mbind result_bind fst snd]; [| done].
  rewrite (IH l2); [done | by injection H].
Qed.

Lemma expected_size_shapes (a b : list ndarray) :
  map shape a = map shape b →
  sum_list (map leaf_size a) = sum_list (map leaf_size b).
Proof.
  revert b. induction a as [|x a IH]; intros [|y b] H; try done.
  injection H as Hx H. simpl. unfold leaf_size at 1 3. rewrite Hx.
  f_equal. by apply IH.
Qed.

Lemma length_weight_stream (m : MLP) :
  model_wf m → length (weight_stream m) = expected_size m.
Proof.
  unfold model_wf, weight_stream, expected_size.
  induction (tree_leaves m) as [|a l IH]; intros Hwf; [done |].
  apply Forall_cons in Hwf as [Ha Hwf]. simpl.
  rewrite length_app, leaf_size_wf, IH; done.
Qed.

(** Reading back what was written from a well-formed model of the
    skeleton's structure. *)
Lemma deserialise_leaves_stream (like m : MLP) :
  tree_structure like = tree_structure m → model_wf m →
  deserialise_leaves like (weight_stream m) = Ok m.
Proof.
  unfold tree_structure, model_wf, weight_stream, tree_leaves.
  intros [= Hsh Hact] Hwf. unfold deserialise_leaves.
  assert (length (layers like) = length (layers m)) as Hlen.
  { apply (f_equal length) in Hsh. rewrite !length_map, !length_layer_leaves in Hsh.
    lia. }
  rewrite <- (app_nil_r (flat_map _ _)).
  rewrite read_layers_prefix by (done || lia).
  cbn [mbind result_mbind result_bind fst snd].
  rewrite Hlen, drop_all, take_ge by lia. cbn [layer_leaves flat_map app].
  unfold tree_leaves. rewrite bool_decide_eq_true_2 by done.
  rewrite Hact. by destruct m.
Qed.

(** The skeleton contributes its structure only. *)
Lemma deserialise_leaves_structure (m1 m2 : MLP) (bs : list byte) :
  tree_structure m1 = tree_structure m2 →
  deserialise_leaves m1 bs = deserialise_leaves m2 bs.
Proof.
  unfold tree_structure. intros [= Hsh Hact]. unfold deserialise_leaves.
  assert (length (layers m1) = length (layers m2)) as Hlen.
  { apply (f_equal length) in Hsh. unfold tree_leaves in Hsh.
    rewrite !length_map, !length_layer_leaves in Hsh. lia. }
  by rewrite (read_layers_length _ _ bs Hlen), Hsh, Hact.
Qed.

(** The model that is read has the structure of the skeleton, and its
    leaves, written out in the writer's order, are the bytes that were
    read. *)
Lemma deserialise_leaves_Ok (like : MLP) (bs : list byte) (m : MLP) :
  deserialise_leaves like bs = Ok m →
  tree_structure m = tree_structure like ∧ weight_stream m = bs ∧ model_wf m.
Proof.
  unfold deserialise_leaves.
  destruct (read_layers (layers like) bs) as [[ls r]|e] eqn:Hr;
    cbn [mbind result_mbind result_bind fst snd]; [| done].
  destruct r as [|? ?]; [| done].
  destruct (bool_decide_reflect
              (map shape (layer_leaves ls) = map shape (tree_leaves like)))
    as [Hsh|]; [| done].
  intros [= <-]. apply read_layers_Ok in Hr as (-> & Hwf & _).
  unfold tree_structure, weight_stream, model_wf, tree_leaves.
  cbn [layers activation]. rewrite app_nil_r.
  split; [by f_equal |]. done.
Qed.

(** Reading what was written from a well-formed model with a skeleton of
    other shapes fails. *)
Lemma deserialise_leaves_mismatch (like m : MLP) :
  model_wf m → map shape (tree_leaves m) ≠ map shape (tree_leaves like) →
  deserialise_leaves like (weight_stream m) = Raise ShapeMismatch
  ∨ deserialise_leaves like (weight_stream m) = Raise TruncatedStream.
Proof.
  unfold model_wf, weight_stream, tree_leaves. intros Hwf Hne.
  unfold deserialise_leaves.
  destruct (Nat.le_gt_cases (length (layers like)) (length (layers m)))
    as [Hle|Hgt].
  - left. rewrite <- (app_nil_r (flat_map _ _)).
    rewrite read_layers_prefix by done.
    cbn [mbind result_mbind result_bind fst snd]. rewrite app_nil_r.
    destruct (drop (length (layers like)) (layers m)) as [|[w b] tl] eqn:Hdrop.
    + cbn [layer_leaves flat_map].
      assert (length (layers m) ≤ length (layers like))%nat as Hge.
      { apply (f_equal length) in Hdrop. rewrite length_drop in Hdrop.
        simpl in Hdrop. lia. }
      rewrite take_ge by lia. unfold tree_leaves.
      by rewrite bool_decide_eq_false_2.
    + cbn [layer_leaves flat_map linear_leaves weight app].
      destruct (leaf_bytes_cons w) as (c & cs & ->). done.
  - right. by rewrite read_layers_short.
Qed.

(** ** File objects *)

Lemma world_eta (w : world) : World (files w) (handles w) (trace w) = w.
Proof. by destruct w. Qed.

Lemma fresh_handle (w : world) : handles w !! fresh (dom (handles w)) = None.
Proof. apply not_elem_of_dom, is_fresh. Qed.

Lemma io_bind_run {A B} (m : io A) (k : A -> io B) (w : world) :
  (m ≫= k) w
  = match m w with
    | (Ok a, w') => k a w'
    | (Raise e, w') => (Raise e, w')
    end.
Proof. reflexivity. Qed.

Lemma lift_run {A} (r : result A) (w : world) : lift r w = (r, w).
Proof. reflexivity. Qed.

(** A write at the end of the file appends. *)
Lemma write_append (fd : nat) (path : string) (c bs : list byte) (w : world) :
  handles w !! fd = Some (Handle path wb (length c)) →
  files w !! path = Some c →
  write fd bs w
  = (Ok tt, World (<[path := c ++ bs]> (files w))
                  (<[fd := Handle path wb (length (c ++ bs))]> (handles w))
                  (trace w ++ [EvWrite fd bs])).
Proof.
  intros Hh Hf. unfold write, contents, log. rewrite Hh, Hf. simpl.
  rewrite take_ge, drop_ge, app_nil_r, length_app by lia. done.
Qed.

Lemma write_leaves_append (fd : nat) (path : string) (leaves : list ndarray) :
  ∀ (c : list byte) (w : world),
    handles w !! fd = Some (Handle path wb (length c)) →
    files w !! path = Some c →
    write_leaves fd leaves w
    = (Ok tt,
       World (<[path := c ++ flat_map leaf_bytes leaves]> (files w))
             (<[fd := Handle path wb (length (c ++ flat_map leaf_bytes leaves))]>
                (handles w))
             (trace w ++ map (fun a => EvWrite fd (leaf_bytes a)) leaves)).
Proof.
  induction leaves as [|a leaves IH]; intros c w Hh Hf.
  - simpl. rewrite !app_nil_r, !insert_id by done. by rewrite world_eta.
  - cbn [write_leaves]. rewrite io_bind_run.
    rewrite (write_append fd path c) by done.
    rewrite (IH (c ++ leaf_bytes a)); cbn [files handles trace].
    + rewrite !insert_insert_eq. cbn [flat_map map].
      by rewrite <- !app_assoc.
    + by rewrite lookup_insert_eq.
    + by rewrite lookup_insert_eq.
Qed.

(** ** The writer, run *)

Lemma save_ok (path : string) (params : dict) (model : MLP) (w : world) (s : string) :
  json_dumps params = Ok s →
  save path params model w
  = (Ok tt,
     World (<[path := header_bytes s ++ weight_stream model]> (files w))
           (handles w)
           (trace w ++ save_events (fresh (dom (handles w))) path s model)).
Proof.
  intros Hs. unfold save, with_open, open_, log. cbn [files handles trace].
  rewrite io_bind_run, lift_run, Hs, io_bind_run.
  rewrite (write_append _ path []); cbn [files handles trace];
    [| by rewrite lookup_insert_eq ..].
  unfold tree_serialise_leaves.
  rewrite (write_leaves_append _ path _ ([] ++ header_bytes s));
    cbn [files handles trace]; [| by rewrite lookup_insert_eq ..].
  unfold close, log. cbn [snd files handles trace].
  rewrite !insert_insert_eq, delete_insert_id by apply fresh_handle.
  unfold save_events, weight_stream. cbn [app].
  by rewrite <- !app_assoc.
Qed.

Lemma save_raise (path : string) (params : dict) (model : MLP) (w : world) (e : exn) :
  json_dumps params = Raise e →
  save path params model w
  = (Raise e,
     World (<[path := []]> (files w)) (handles w)
           (trace w ++ [EvOpen (fresh (dom (handles w))) path wb;
                        EvClose (fresh (dom (handles w)))])).
Proof.
  intros Hs. unfold save, with_open, open_, log. cbn [files handles trace].
  rewrite io_bind_run, lift_run, Hs.
  unfold close, log. cbn [snd files handles trace].
  rewrite delete_insert_id by apply fresh_handle.
  by rewrite <- !app_assoc.
Qed.

(** ** The reader, run *)

Section Reader.

Context {prng_key : Type}.
Variable PRNGKey : Z -> prng_key.
Variable jr_split : prng_key -> nat -> nat -> prng_key.
Variable jr_uniform : prng_key -> nat -> nat -> f32.

Lemma load_missing (path : string) (w : world) :
  files w !! path = None →
  load PRNGKey jr_split jr_uniform path w = (Raise FileNotFoundError, w).
Proof. intros Hf. unfold load, with_open, open_. by rewrite Hf. Qed.

Lemma load_run (path : string) (c : list byte) (w : world) :
  files w !! path = Some c →
  load PRNGKey jr_split jr_uniform path w
  = (load_result PRNGKey jr_split jr_uniform c,
     World (files w) (handles w)
           (trace w ++ EvOpen (fresh (dom (handles w))) path rb
                       :: load_events PRNGKey jr_split jr_uniform
                            (fresh (dom (handles w))) c
                       ++ [EvClose (fresh (dom (handles w)))])).
Proof.
  intros Hf.
  assert (∀ (A : Type) (r : result A) h1 h2 (t : list event),
    (r, (close (fresh (dom (handles w)))
           (World (files w)
                  (<[fresh (dom (handles w)) := h1]>
                     (<[fresh (dom (handles w)) := h2]> (handles w))) t)).2)
    = (r, World (files w) (handles w)
                (t ++ [EvClose (fresh (dom (handles w)))]))) as Hclose.
  { intros. unfold close, log. cbn [snd files handles trace].
    by rewrite insert_insert_eq, delete_insert_id by apply fresh_handle. }
  unfold load, with_open, open_, log. rewrite Hf.
  cbn [files handles trace]. rewrite io_bind_run.
  unfold readline, contents, log. cbn [files handles trace].
  rewrite lookup_insert_eq, Hf.
  change (default [] (Some c)) with c. rewrite drop_0. cbn [Nat.add].
  unfold load_result, load_events, parse_header.
  rewrite io_bind_run, lift_run.
  destruct (bytes_decode (take_line c)) as [text|e] eqn:Htext;
    cbn [mbind result_mbind result_bind].
  2:{ rewrite Hclose. by rewrite <- !app_assoc. }
  rewrite io_bind_run, lift_run.
  destruct (json_loads text) as [params|e] eqn:Hparams;
    cbn [mbind result_mbind result_bind].
  2:{ rewrite Hclose. by rewrite <- !app_assoc. }
  rewrite io_bind_run. unfold call_make, log. cbn [files handles trace].
  destruct (make_kwargs jr_split jr_uniform (PRNGKey 0) params) as [model|e] eqn:Hmodel;
    cbn [mbind result_mbind result_bind].
  2:{ rewrite Hclose. by rewrite <- !app_assoc. }
  unfold tree_deserialise_leaves. rewrite io_bind_run.
  unfold read, contents, log. cbn [files handles trace].
  rewrite lookup_insert_eq, Hf.
  change (default [] (Some c)) with c. rewrite lift_run.
  rewrite insert_insert_eq, Hclose. by rewrite <- !app_assoc.
Qed.

End Reader.

(** ** The constructor *)

Lemma layer_leaves_app (l1 l2 : list Linear) :
  layer_leaves (l1 ++ l2) = layer_leaves l1 ++ layer_leaves l2.
Proof. apply flat_map_app. Qed.

Lemma layer_leaves_wf (ls : list Linear) :
  Forall linear_wf ls → Forall array_wf (layer_leaves ls).
Proof.
  induction 1 as [|l ls [Hw Hb] _ IH]; [constructor |].
  cbn [layer_leaves flat_map linear_leaves app]. by repeat constructor.
Qed.

Section Constructor.

Context {prng_key : Type}.
Variable jr_split : prng_key -> nat -> nat -> prng_key.
Variable jr_uniform : prng_key -> nat -> nat -> f32.

Lemma random_array_wf (key : prng_key) (fan : nat) (sh : list nat) :
  array_wf (random_array jr_uniform key fan sh).
Proof. unfold array_wf, random_array. simpl. by rewrite length_map, length_seq. Qed.

Lemma Linear_init_wf (i o : nat) (key : prng_key) :
  linear_wf (Linear_init jr_split jr_uniform i o key).
Proof. split; apply random_array_wf. Qed.

Lemma MLP_layers_wf (i o w d : nat) (key : prng_key) :
  Forall linear_wf (MLP_layers jr_split jr_uniform i o w d key).
Proof.
  unfold MLP_layers. destruct d as [|d].
  - repeat constructor; apply random_array_wf.
  - apply Forall_cons. split; [apply Linear_init_wf |].
    apply Forall_app. split.
    + apply Forall_map, Forall_forall. intros ? _. apply Linear_init_wf.
    + repeat constructor; apply random_array_wf.
Qed.

Lemma MLP_layers_shapes (i o w d : nat) (key : prng_key) :
  map shape (layer_leaves (MLP_layers jr_split jr_uniform i o w d key))
  = MLP_shapes i o w d.
Proof.
  unfold MLP_layers, MLP_shapes. destruct d as [|d]; [reflexivity |].
  change (layer_leaves (?x :: ?l)) with (linear_leaves x ++ layer_leaves l).
  rewrite layer_leaves_app, !map_app. f_equal. f_equal.
  induction (seq 0 d) as [|n l IH]; [reflexivity |].
  cbn [map flat_map].
  change (layer_leaves (?x :: ?l)) with (linear_leaves x ++ layer_leaves l).
  by rewrite map_app, IH.
Qed.

Lemma make_kwargs_structure (key : prng_key) (params : dict) :
  result_map tree_structure (make_kwargs jr_split jr_uniform key params)
  = make_structure params.
Proof.
  unfold make_kwargs, make_structure, make, eqx_nn_MLP.
  destruct (forallb _ params); [|reflexivity].
  destruct (dict_get "size" params) as [size|]; [|reflexivity].
  destruct (dict_get "width" params) as [width|]; [|reflexivity].
  destruct (dict_get "depth" params) as [depth|]; [|reflexivity].
  destruct (as_size size) as [i|]; [|reflexivity].
  destruct (as_size width) as [w|]; [|reflexivity].
  destruct (as_size depth) as [d|]; [|reflexivity].
  cbn. unfold tree_structure, tree_leaves. cbn [layers activation].
  by rewrite MLP_layers_shapes.
Qed.

Lemma make_kwargs_wf (key : prng_key) (params : dict) (m : MLP) :
  make_kwargs jr_split jr_uniform key params = Ok m → model_wf m.
Proof.
  unfold make_kwargs, make, eqx_nn_MLP.
  destruct (forallb _ params); [|done].
  destruct (dict_get "size" params) as [size|]; [|done].
  destruct (dict_get "width" params) as [width|]; [|done].
  destruct (dict_get "depth" params) as [depth|]; [|done].
  destruct (as_size size) as [i|]; [|done].
  destruct (as_size width) as [w|]; [|done].
  destruct (as_size depth) as [d|]; [|done].
  cbn. intros [= <-]. apply layer_leaves_wf, MLP_layers_wf.
Qed.

End Constructor.

(** ** When the encoder succeeds *)

Lemma encode_value_representable (v : pyval) :
  json_representable v = true → ∃ ev, encode_value v = Ok ev.
Proof. destruct v as [|[]|z|s|bs]; intros H; try discriminate H; eauto. Qed.

Lemma encode_value_unrepresentable (v : pyval) :
  json_representable v = false → encode_value v = Raise TypeError.
Proof. destruct v as [|[]|z|s|bs]; intros H; try discriminate H; done. Qed.

Lemma encode_value_raises (v : pyval) (e : exn) :
  encode_value v = Raise e → e = TypeError ∧ json_representable v = false.
Proof. destruct v as [|[]|z|s|bs]; intros H; try discriminate H. by injection H as <-. Qed.

Lemma encode_item_representable (kv : string * pyval) :
  json_representable kv.2 = true → ∃ i, encode_item kv = Ok i.
Proof.
  intros [ev Hev]%encode_value_representable. unfold encode_item.
  rewrite Hev. eauto.
Qed.

Lemma encode_items_representable (d : dict) :
  representable d → ∃ s, encode_items d = Ok s.
Proof.
  induction 1 as [|kv d Hkv Hd [r Hr]]; [by eexists |].
  destruct (encode_item_representable kv Hkv) as [i Hi].
  destruct d as [|kv2 d]; [by exists i |].
  rewrite encode_items_cons, Hi, Hr. by eexists.
Qed.

Lemma json_dumps_representable (d : dict) :
  representable d → ∃ s, json_dumps d = Ok s.
Proof.
  intros [r Hr]%encode_items_representable. unfold json_dumps.
  rewrite Hr. by eexists.
Qed.

Lemma encode_items_unrepresentable (d : dict) :
  unrepresentable d → encode_items d = Raise TypeError.
Proof.
  induction d as [|kv d IH]; intros Hd; [by apply Exists_nil in Hd |].
  assert (encode_item kv = Raise TypeError ∨ ∃ i, encode_item kv = Ok i) as Hkv.
  { unfold encode_item. destruct (encode_value kv.2) as [ev|e] eqn:Hev.
    - right. by eexists.
    - left. by apply encode_value_raises in Hev as [-> _]. }
  destruct d as [|kv2 d].
  - apply Exists_cons in Hd as [Hd|Hd]; [|by apply Exists_nil in Hd].
    simpl. unfold encode_item. by rewrite encode_value_unrepresentable.
  - rewrite encode_items_cons. destruct Hkv as [Hkv|[i Hkv]]; rewrite Hkv; [done |].
    apply Exists_cons in Hd as [Hd|Hd].
    + unfold encode_item in Hkv.
      by rewrite encode_value_unrepresentable in Hkv.
    + by rewrite IH.
Qed.

Lemma json_dumps_unrepresentable (d : dict) :
  unrepresentable d → json_dumps d = Raise TypeError.
Proof.
  intros Hd. unfold json_dumps. by rewrite encode_items_unrepresentable.
Qed.

(** ** Lines *)

Lemma take_drop_line (c : list byte) :
  take_line c ++ drop (length (take_line c)) c = c.
Proof.
  induction c as [|b c IH]; [done |]. simpl.
  destruct (Byte.eqb b newline_byte); simpl; [done | by rewrite IH].
Qed.

(** A line ends at the first newline byte, or at the end of the file. *)
Lemma take_line_spec (c : list byte) :
  (take_line c = c ∧ no_newline c = true)
  ∨ (∃ l, take_line c = l ++ [newline_byte] ∧ no_newline l = true).
Proof.
  induction c as [|b c IH]; [by left |]. cbn [take_line].
  destruct (Byte.eqb b newline_byte) eqn:Hb.
  - right. exists []. apply Byte.byte_dec_bl in Hb as ->. done.
  - destruct IH as [[-> Hc] | (l & -> & Hl)].
    + left. unfold no_newline in *. cbn [forallb]. by rewrite Hb.
    + right. exists (b :: l). unfold no_newline in *. cbn [forallb].
      by rewrite Hb.
Qed.

Lemma split_newline_app (l rest : list byte) :
  no_newline l = true → split_newline (l ++ newline_byte :: rest) = (l, rest).
Proof.
  induction l as [|b l IH]; [done |]. unfold no_newline.
  cbn [forallb app split_newline].
  intros [Hb Hl]%andb_prop. apply negb_true_iff in Hb. rewrite Hb.
  by rewrite IH.
Qed.

Lemma header_bytes_line (s : string) :
  header_bytes s = str_encode s ++ [newline_byte].
Proof. apply str_encode_line. Qed.

Lemma header_no_newline (d : dict) (s : string) :
  json_dumps d = Ok s → no_newline (str_encode s) = true.
Proof. intros Hs. by apply printable_no_newline, (printable_json_dumps d). Qed.

Lemma take_line_written (d : dict) (s : string) (rest : list byte) :
  json_dumps d = Ok s → take_line (header_bytes s ++ rest) = header_bytes s.
Proof.
  intros Hs. rewrite header_bytes_line, <- app_assoc.
  apply take_line_app. by apply (header_no_newline d).
Qed.

(** ** The example of the notebook *)

Lemma hyperparameters_wf : dict_wf hyperparameters.
Proof. apply (bool_decide_unpack _). by vm_compute. Qed.

Lemma hyperparameters_representable : representable hyperparameters.
Proof. by repeat constructor. Qed.

(** ** Events *)

Lemma event_on_writes (fd : nat) (leaves : list ndarray) :
  forallb (event_on fd) (map (fun a => EvWrite fd (leaf_bytes a)) leaves) = true.
Proof.
  induction leaves as [|a leaves IH]; [done |].
  cbn [map forallb event_on]. by rewrite Nat.eqb_refl, IH.
Qed.

(** ** Writing, then reading *)

Section Claims.

Context {prng_key : Type}.
Variable PRNGKey : Z -> prng_key.
Variable jr_split : prng_key -> nat -> nat -> prng_key.
Variable jr_uniform : prng_key -> nat -> nat -> f32.

Local Abbreviation make_kwargs' := (make_kwargs jr_split jr_uniform).
Local Abbreviation load' := (load PRNGKey jr_split jr_uniform).
Local Abbreviation load_result' := (load_result PRNGKey jr_split jr_uniform).
Local Abbreviation load_events' := (load_events PRNGKey jr_split jr_uniform).

(** What the reader makes of a file the writer produced. *)
Lemma load_result_file (params : dict) (s : string) (model : MLP) :
  dict_wf params → json_dumps params = Ok s →
  load_result' (header_bytes s ++ weight_stream model)
  = skeleton ← make_kwargs' (PRNGKey 0) params;
    deserialise_leaves skeleton (weight_stream model).
Proof.
  intros Hwf Hs. unfold load_result.
  rewrite (take_line_written params) by done.
  rewrite drop_app_length. unfold header_bytes.
  by rewrite (parse_header_dumps params s).
Qed.

(** A model is compatible with hyperparameters when it is well formed and
    has the structure of the skeleton they build: the model the constructor
    built, or that model after training. *)
Lemma load_result_compatible (params : dict) (s : string) (model : MLP) :
  dict_wf params → json_dumps params = Ok s →
  make_structure params = Ok (tree_structure model) → model_wf model →
  load_result' (header_bytes s ++ weight_stream model) = Ok model.
Proof.
  intros Hwf Hs Hst Hm. rewrite (load_result_file params) by done.
  pose proof (make_kwargs_structure jr_split jr_uniform (PRNGKey 0) params) as Hsk.
  rewrite Hst in Hsk.
  destruct (make_kwargs' (PRNGKey 0) params) as [sk|e]; cbn [result_map] in Hsk;
    [|done].
  cbn [mbind result_mbind result_bind].
  apply deserialise_leaves_stream; [congruence | done].
Qed.

Lemma load_result_written (key : prng_key) (params : dict) (s : string) (model : MLP) :
  dict_wf params → json_dumps params = Ok s →
  make_kwargs' key params = Ok model →
  load_result' (header_bytes s ++ weight_stream model) = Ok model.
Proof.
  intros Hwf Hs Hm. apply (load_result_compatible params); try done.
  - rewrite <- (make_kwargs_structure jr_split jr_uniform key params).
    by rewrite Hm.
  - by apply (make_kwargs_wf jr_split jr_uniform key params).
Qed.

Lemma contents_saved (path : string) (params : dict) (model : MLP) (w : world)
    (s : string) :
  json_dumps params = Ok s →
  files (save path params model w).2 !! path
  = Some (header_bytes s ++ weight_stream model).
Proof. intros Hs. rewrite (save_ok _ _ _ _ s Hs). apply lookup_insert_eq. Qed.

(** The round trip of a compatible model, trained or not. *)
Lemma save_load_compatible (H : dict) (M : MLP) (filename : string) (w : world) :
  dict_wf H → representable H →
  make_structure H = Ok (tree_structure M) → model_wf M →
  (load' filename (save filename H M w).2).1 = Ok M.
Proof.
  intros Hwf Hrep Hst Hm. destruct (json_dumps_representable H Hrep) as [s Hs].
  rewrite (load_run _ _ _ _ _ _ (contents_saved filename H M w s Hs)). cbn [fst].
  by apply (load_result_compatible H).
Qed.

(** C1. Round trip: for a hyperparameter mapping [H] whose values are
    JSON-representable and a model [M] the constructor built from [H],
    writing [(H, M)] succeeds, reading the file back returns [M] itself
    (every leaf identical, byte for byte), and the hyperparameter mapping
    recovered from the first line of the file is [H]. *)
Theorem save_load_roundtrip (key : prng_key) (H : dict) (M : MLP)
    (filename : string) (w : world) :
  dict_wf H → representable H → make_kwargs' key H = Ok M →
  (save filename H M w).1 = Ok tt
  ∧ (load' filename (save filename H M w).2).1 = Ok M
  ∧ parse_header (take_line (contents (save filename H M w).2 filename)) = Ok H.
Proof.
  intros Hwf Hrep Hm. destruct (json_dumps_representable H Hrep) as [s Hs].
  pose proof (contents_saved filename H M w s Hs) as Hc.
  split; [by rewrite (save_ok _ _ _ _ s Hs) |]. split.
  - rewrite (load_run _ _ _ _ _ _ Hc). cbn [fst].
    by apply (load_result_written key H).
  - unfold contents. rewrite Hc. cbn [default from_option id].
    rewrite (take_line_written H) by done. by apply parse_header_dumps.
Qed.

(** C2. Layout of the writer's output: for a JSON-representable
    hyperparameter mapping and any model, the file holds the JSON text of
    the hyperparameters, one newline byte, then the bytes of the leaves
    in traversal order with nothing between them.  The JSON text holds no
    newline byte, so that splitting the file at its first newline gives the
    text and the weight stream; the text decodes to the hyperparameters;
    and the header is written before any leaf. *)
Theorem save_layout (H : dict) (M : MLP) (filename : string) (w : world) :
  dict_wf H → representable H →
  ∃ s fd,
    json_dumps H = Ok s
    ∧ (save filename H M w).1 = Ok tt
    ∧ contents (save filename H M w).2 filename
      = str_encode s ++ newline_byte :: weight_stream M
    ∧ no_newline (str_encode s) = true
    ∧ split_newline (contents (save filename H M w).2 filename)
      = (str_encode s, weight_stream M)
    ∧ json_loads s = Ok H
    ∧ weight_stream M = concat (map leaf_bytes (tree_leaves M))
    ∧ trace (save filename H M w).2
      = trace w ++ EvOpen fd filename wb
                :: EvWrite fd (str_encode s ++ [newline_byte])
                :: map (fun a => EvWrite fd (leaf_bytes a)) (tree_leaves M)
                ++ [EvClose fd].
Proof.
  intros Hwf Hrep. destruct (json_dumps_representable H Hrep) as [s Hs].
  exists s, (fresh (dom (handles w))).
  pose proof (header_no_newline H s Hs) as Hnl.
  assert (contents (save filename H M w).2 filename
          = str_encode s ++ newline_byte :: weight_stream M) as Hc.
  { unfold contents. rewrite (contents_saved _ _ _ _ s Hs).
    cbn [default from_option id]. by rewrite header_bytes_line, <- app_assoc. }
  repeat split; try done.
  - by rewrite (save_ok _ _ _ _ s Hs).
  - rewrite Hc. by apply split_newline_app.
  - rewrite <- (append_nil_r s). by apply json_loads_dumps.
  - apply flat_map_concat_map.
  - rewrite (save_ok _ _ _ _ s Hs). cbn [snd trace]. unfold save_events.
    by rewrite header_bytes_line.
Qed.

(** C3. The reader's procedure: it consumes one line, the bytes up to and
    including the first newline byte; parses it as JSON into the
    hyperparameters; calls the constructor with exactly those
    hyperparameters (and the key [PRNGKey 0]); and hands the remaining
    bytes, and no others, to the leaf reader, which assigns them to the
    leaves of the skeleton in the writer's traversal order: the loaded
    model has the skeleton's structure and its weight stream is the
    remaining bytes. *)
Theorem load_procedure (filename : string) (c : list byte) (w : world) :
  files w !! filename = Some c →
  let line := take_line c in
  let rest := drop (length line) c in
  c = line ++ rest
  ∧ ((line = c ∧ no_newline c = true)
     ∨ ∃ l, line = l ++ [newline_byte] ∧ no_newline l = true)
  ∧ (load' filename w).1
    = (params ← parse_header line;
       skeleton ← make_kwargs' (PRNGKey 0) params;
       deserialise_leaves skeleton rest)
  ∧ (∃ fd, trace (load' filename w).2
      = trace w ++ EvOpen fd filename rb :: EvReadline fd line
          :: match parse_header line with
             | Ok params =>
                 EvMake params
                 :: match make_kwargs' (PRNGKey 0) params with
                    | Ok _ => [EvRead fd rest]
                    | Raise _ => []
                    end
             | Raise _ => []
             end ++ [EvClose fd])
  ∧ (∀ model, (load' filename w).1 = Ok model →
      ∃ params skeleton,
        parse_header line = Ok params
        ∧ make_kwargs' (PRNGKey 0) params = Ok skeleton
        ∧ tree_structure model = tree_structure skeleton
        ∧ weight_stream model = rest).
Proof.
  intros Hf line rest. rewrite (load_run _ _ _ _ _ _ Hf). cbn [fst snd trace].
  split; [symmetry; apply take_drop_line |].
  split; [apply take_line_spec |].
  split; [reflexivity |].
  split; [by eexists |].
  intros model. unfold load_result. fold line. fold rest.
  destruct (parse_header line) as [params|]; [|done].
  cbn [mbind result_mbind result_bind].
  destruct (make_kwargs' (PRNGKey 0) params) as [skeleton|] eqn:Hsk; [|done].
  cbn [mbind result_mbind result_bind]. intros Hd.
  apply deserialise_leaves_Ok in Hd as (Hst & Hws & _).
  by exists params, skeleton.
Qed.

(** C4, as amended.  A hyperparameter mapping with a value that is not
    JSON-representable makes the writer fail with [TypeError], raised by
    [json.dumps] before any byte is written.  The destination has been
    opened for writing by then: it is left existing and empty, whatever it
    held before, and its file object is closed. *)
Theorem save_unencodable (H : dict) (M : MLP) (filename : string) (w : world) :
  unrepresentable H →
  (save filename H M w).1 = Raise TypeError
  ∧ files (save filename H M w).2 = <[filename := []]> (files w)
  ∧ handles (save filename H M w).2 = handles w
  ∧ ∃ fd, trace (save filename H M w).2
          = trace w ++ [EvOpen fd filename wb; EvClose fd].
Proof.
  intros HH. rewrite (save_raise _ _ _ _ _ (json_dumps_unrepresentable H HH)).
  repeat split. by eexists.
Qed.

(** C5. A first line that is not a JSON document: the reader fails with the
    decoder's exception, which reaches the caller as it is, and the
    constructor is not called: between opening and closing the file the
    reader only read the line. *)
Theorem load_malformed_header (filename : string) (c : list byte) (w : world)
    (e : exn) :
  files w !! filename = Some c →
  parse_header (take_line c) = Raise e → is_malformed_header e = true →
  (load' filename w).1 = Raise e
  ∧ (∃ fd, trace (load' filename w).2
           = trace w ++ [EvOpen fd filename rb; EvReadline fd (take_line c);
                         EvClose fd])
  ∧ (∀ params, EvMake params ∈ trace (load' filename w).2 →
               EvMake params ∈ trace w)
  ∧ handles (load' filename w).2 = handles w.
Proof.
  intros Hf He _. rewrite (load_run _ _ _ _ _ _ Hf). cbn [fst snd trace handles].
  unfold load_result, load_events. rewrite He.
  repeat split; [by eexists |].
  intros params [Hin|Hin]%elem_of_app; [done |].
  repeat (apply elem_of_cons in Hin as [Hin|Hin]; [discriminate Hin |]).
  by apply elem_of_nil in Hin.
Qed.

(** C6. A file written from a model, read back with a skeleton whose
    leaves differ from the model's in number or in shape, or whose leaf
    layout expects another number of bytes than the weight stream holds:
    the reader fails with [ShapeMismatch] or with [TruncatedStream], and
    returns no model. *)
Theorem load_structure_mismatch (H : dict) (M skeleton : MLP) (filename : string)
    (w : world) :
  dict_wf H → representable H → model_wf M →
  make_kwargs' (PRNGKey 0) H = Ok skeleton →
  map shape (tree_leaves M) ≠ map shape (tree_leaves skeleton)
  ∨ length (weight_stream M) ≠ expected_size skeleton →
  (load' filename (save filename H M w).2).1 = Raise ShapeMismatch
  ∨ (load' filename (save filename H M w).2).1 = Raise TruncatedStream.
Proof.
  intros Hwf Hrep HM Hsk Hne. destruct (json_dumps_representable H Hrep) as [s Hs].
  rewrite (load_run _ _ _ _ _ _ (contents_saved filename H M w s Hs)). cbn [fst].
  rewrite (load_result_file H) by done. rewrite Hsk.
  cbn [mbind result_mbind result_bind].
  apply deserialise_leaves_mismatch; [done |].
  destruct Hne as [Hne|Hne]; [done |].
  intros Hsh. apply Hne. rewrite length_weight_stream by done.
  by apply expected_size_shapes.
Qed.

(** C7. The writer is deterministic: what it returns and the bytes it
    leaves in the file depend on the hyperparameters and the model only,
    not on the world it runs in. *)
Theorem save_deterministic (H : dict) (M : MLP) (filename : string) (w1 w2 : world) :
  (save filename H M w1).1 = (save filename H M w2).1
  ∧ files (save filename H M w1).2 !! filename
    = files (save filename H M w2).2 !! filename.
Proof.
  destruct (json_dumps H) as [s|e] eqn:Hs.
  - rewrite !(save_ok _ _ _ _ s Hs). cbn [fst snd files].
    by rewrite !lookup_insert_eq.
  - rewrite !(save_raise _ _ _ _ e Hs). cbn [fst snd files].
    by rewrite !lookup_insert_eq.
Qed.

Lemma example_model (key : prng_key) :
  ∃ M x, make_kwargs' key hyperparameters = Ok M ∧ weight_at M 1 2 2 = Some x.
Proof. eexists _, _. split; reflexivity. Qed.

(** C8. The example of the notebook: with the hyperparameters
    [{"size": 5, "width": 10, "depth": 3, "use_tanh": true}] and the model
    the constructor builds from them, with any key, writing and reading
    back gives a model whose element [layers[1].weight[2, 2]] exists and is
    the original's; and the cells of the notebook run to the end, the
    assertion of the last one holding. *)
Theorem example_weight_preserved (key : prng_key) (filename : string) (w : world) :
  (∃ M M' x,
     make_kwargs' key hyperparameters = Ok M
     ∧ (save filename hyperparameters M w).1 = Ok tt
     ∧ (load' filename (save filename hyperparameters M w).2).1 = Ok M'
     ∧ weight_at M 1 2 2 = Some x
     ∧ weight_at M' 1 2 2 = Some x)
  ∧ (notebook PRNGKey jr_split jr_uniform w).1 = Ok tt.
Proof.
  destruct (json_dumps_representable _ hyperparameters_representable) as [s Hs].
  assert (∀ k M, make_kwargs' k hyperparameters = Ok M →
            (load' filename (save filename hyperparameters M w).2).1 = Ok M) as Hload.
  { intros k M HM.
    rewrite (load_run _ _ _ _ _ _ (contents_saved filename _ _ w s Hs)). cbn [fst].
    by apply (load_result_written k hyperparameters s); [apply hyperparameters_wf | |]. }
  split.
  - destruct (example_model key) as (M & x & HM & Hx).
    exists M, M, x. split; [done |].
    split; [by rewrite (save_ok _ _ _ _ s Hs) |]. by rewrite (Hload key M HM).
  - destruct (example_model (PRNGKey 0)) as (M & x & HM & Hx).
    unfold notebook. rewrite io_bind_run, lift_run, HM, io_bind_run.
    rewrite (save_ok _ _ _ _ s Hs), io_bind_run.
    rewrite load_run with (c := header_bytes s ++ weight_stream M)
      by apply lookup_insert_eq.
    rewrite (load_result_written (PRNGKey 0) hyperparameters s M);
      [| apply hyperparameters_wf | done | done].
    rewrite Hx, f32_eqb_refl. reflexivity.
Qed.

(** C9. Scoped use of the file: the writer and the reader each open the
    file once, on a file object that was not open before, work on that
    file object only, and close it last, whether they return or raise; the
    table of open file objects is afterwards what it was before.  A reader
    whose file does not exist raises at [open] and opens nothing. *)
Theorem scoped_file_discipline :
  (∀ (filename : string) (H : dict) (M : MLP) (w : world),
     handles (save filename H M w).2 = handles w
     ∧ ∃ fd body,
         (fd ∉ dom (handles w))
         ∧ trace (save filename H M w).2
           = trace w ++ EvOpen fd filename wb :: body ++ [EvClose fd]
         ∧ forallb (event_on fd) body = true)
  ∧ (∀ (filename : string) (w : world),
       handles (load' filename w).2 = handles w
       ∧ (((files w !! filename) = None
           ∧ (load' filename w).1 = Raise FileNotFoundError
           ∧ trace (load' filename w).2 = trace w)
          ∨ ∃ fd body,
              (fd ∉ dom (handles w))
              ∧ trace (load' filename w).2
                = trace w ++ EvOpen fd filename rb :: body ++ [EvClose fd]
              ∧ forallb (event_on fd) body = true)).
Proof.
  split.
  - intros filename H M w. destruct (json_dumps H) as [s|e] eqn:Hs.
    + rewrite (save_ok _ _ _ _ s Hs). split; [done |].
      eexists _, (_ :: _). split; [apply is_fresh |]. split; [reflexivity |].
      cbn [forallb event_on]. by rewrite Nat.eqb_refl, event_on_writes.
    + rewrite (save_raise _ _ _ _ e Hs). split; [done |].
      exists (fresh (dom (handles w))), []. split; [apply is_fresh | done].
  - intros filename w. destruct (files w !! filename) as [c|] eqn:Hf.
    + rewrite (load_run _ _ _ _ _ _ Hf). split; [done |]. right.
      eexists _, _. split; [apply is_fresh |]. split; [reflexivity |].
      unfold load_events. cbn [forallb event_on]. rewrite Nat.eqb_refl.
      destruct (parse_header (take_line c)); [|done].
      destruct (make_kwargs' (PRNGKey 0) a); [|done].
      cbn [forallb event_on]. by rewrite Nat.eqb_refl.
    + rewrite (load_missing _ _ _ _ _ Hf). split; [done |]. by left.
Qed.

End Claims.

(** ** The reader and the random generator *)

Section Generators.

Context {key1 key2 : Type}.
Variable PRNGKey1 : Z -> key1.
Variable jr_split1 : key1 -> nat -> nat -> key1.
Variable jr_uniform1 : key1 -> nat -> nat -> f32.
Variable PRNGKey2 : Z -> key2.
Variable jr_split2 : key2 -> nat -> nat -> key2.
Variable jr_uniform2 : key2 -> nat -> nat -> f32.

Lemma load_result_generator (c : list byte) :
  load_result PRNGKey1 jr_split1 jr_uniform1 c
  = load_result PRNGKey2 jr_split2 jr_uniform2 c.
Proof.
  unfold load_result. destruct (parse_header (take_line c)) as [params|]; [|done].
  cbn [mbind result_mbind result_bind].
  pose proof (make_kwargs_structure jr_split1 jr_uniform1 (PRNGKey1 0) params) as H1.
  pose proof (make_kwargs_structure jr_split2 jr_uniform2 (PRNGKey2 0) params) as H2.
  rewrite <- H1 in H2.
  destruct (make_kwargs jr_split1 jr_uniform1 (PRNGKey1 0) params) as [m1|e1],
           (make_kwargs jr_split2 jr_uniform2 (PRNGKey2 0) params) as [m2|e2];
    cbn [result_map] in H2; try discriminate H2.
  - cbn [mbind result_mbind result_bind].
    apply deserialise_leaves_structure. congruence.
  - by injection H2 as ->.
Qed.

(** C10. The reader's result depends on the bytes of the file only: two
    runs of the reader on files with the same bytes return the same model
    or raise the same exception, in whatever worlds they run and whatever
    random generator and key the constructor of the skeleton draws from,
    every leaf of the skeleton being overwritten from the file. *)
Theorem load_depends_on_bytes_only (filename : string) (w1 w2 : world) :
  files w1 !! filename = files w2 !! filename →
  (load PRNGKey1 jr_split1 jr_uniform1 filename w1).1
  = (load PRNGKey2 jr_split2 jr_uniform2 filename w2).1.
Proof.
  intros Hf. destruct (files w1 !! filename) as [c|] eqn:H1.
  - rewrite (load_run _ _ _ _ _ _ H1), (load_run _ _ _ _ _ _ (eq_sym Hf)).
    apply load_result_generator.
  - by rewrite (load_missing _ _ _ _ _ H1), (load_missing _ _ _ _ _ (eq_sym Hf)).
Qed.

End Generators.

(** ** Instances *)

Lemma small_wf : dict_wf small.
Proof. apply (bool_decide_unpack _). by vm_compute. Qed.

Lemma small_representable : representable small.
Proof. by repeat constructor. Qed.

Lemma save_load_roundtrip_witness :
  (save "m.eqx" small small_model empty_world).1 = Ok tt
  ∧ (toy_load "m.eqx" (save "m.eqx" small small_model empty_world).2).1
    = Ok small_model
  ∧ parse_header
      (take_line (contents (save "m.eqx" small small_model empty_world).2 "m.eqx"))
    = Ok small.
Proof.
  apply (save_load_roundtrip toy_PRNGKey toy_split toy_uniform 7%Z small
           small_model "m.eqx" empty_world).
  - apply small_wf.
  - apply small_representable.
  - vm_compute. reflexivity.
Defined.

Lemma save_layout_witness :
  ∃ s, json_dumps small = Ok s
       ∧ split_newline (contents (save "m.eqx" small small_model empty_world).2 "m.eqx")
         = (str_encode s, weight_stream small_model).
Proof.
  destruct (save_layout small small_model "m.eqx" empty_world)
    as (s & fd & Hs & _ & _ & _ & Hsplit & _).
  - apply small_wf.
  - apply small_representable.
  - exists s. split; [exact Hs | exact Hsplit].
Defined.

Lemma load_procedure_witness :
  (toy_load "m.eqx" small_world).1
  = (params ← parse_header (take_line small_file);
     skeleton ← toy_make 0%Z params;
     deserialise_leaves skeleton (drop (length (take_line small_file)) small_file)).
Proof.
  destruct (load_procedure toy_PRNGKey toy_split toy_uniform "m.eqx" small_file
              small_world) as (_ & _ & H & _).
  - vm_compute. reflexivity.
  - exact H.
Defined.

(** C4, as stated, fails: the writer opens the destination, which truncates
    it, before [json.dumps] raises; the three bytes a previous run left in
    the file are gone. *)
Lemma failed_save_truncates_file :
  (save "multipart_serialised.eqx" bad_params small_model old_world).1
  = Raise TypeError
  ∧ files old_world !! "multipart_serialised.eqx" = Some [x01; x02; x03]
  ∧ files (save "multipart_serialised.eqx" bad_params small_model old_world).2
      !! "multipart_serialised.eqx" = Some []
  ∧ files (save "multipart_serialised.eqx" bad_params small_model old_world).2
      !! "multipart_serialised.eqx"
    ≠ files old_world !! "multipart_serialised.eqx".
Proof.
  assert (json_dumps bad_params = Raise TypeError) as Hs by reflexivity.
  rewrite (save_raise _ _ _ _ _ Hs). cbn [fst snd files].
  rewrite lookup_insert_eq. unfold old_world. cbn [files].
  rewrite lookup_singleton_eq. done.
Qed.

Lemma save_unencodable_witness :
  (save "multipart_serialised.eqx" bad_params small_model old_world).1
  = Raise TypeError
  ∧ files (save "multipart_serialised.eqx" bad_params small_model old_world).2
    = <[("multipart_serialised.eqx") := []]> (files old_world).
Proof.
  destruct (save_unencodable bad_params small_model "multipart_serialised.eqx"
              old_world) as (H1 & H2 & _).
  - unfold unrepresentable, bad_params. apply Exists_cons_tl, Exists_cons_hd.
    reflexivity.
  - split; [exact H1 | exact H2].
Defined.

Lemma load_malformed_header_witness :
  (toy_load "garbled.eqx" garbled_world).1 = Raise JSONDecodeError
  ∧ ∀ params, EvMake params ∈ trace (toy_load "garbled.eqx" garbled_world).2 →
              EvMake params ∈ trace garbled_world.
Proof.
  destruct (load_malformed_header toy_PRNGKey toy_split toy_uniform "garbled.eqx"
              (str_encode "{oops" ++ [newline_byte; x00; x00; x80; x3f])
              garbled_world JSONDecodeError) as (H1 & _ & H2 & _).
  - vm_compute. reflexivity.
  - vm_compute. reflexivity.
  - reflexivity.
  - split; [exact H1 | exact H2].
Defined.

Lemma wide_params_wf : dict_wf wide_params.
Proof. apply (bool_decide_unpack _). by vm_compute. Qed.

Lemma narrow_model_wf : model_wf narrow_model.
Proof. unfold model_wf. by repeat constructor. Qed.

Lemma load_structure_mismatch_witness :
  (toy_load "m.eqx" (save "m.eqx" wide_params narrow_model empty_world).2).1
  = Raise ShapeMismatch
  ∨ (toy_load "m.eqx" (save "m.eqx" wide_params narrow_model empty_world).2).1
    = Raise TruncatedStream.
Proof.
  apply (load_structure_mismatch toy_PRNGKey toy_split toy_uniform wide_params
           narrow_model (model_of (toy_make 0%Z wide_params)) "m.eqx" empty_world).
  - apply wide_params_wf.
  - by repeat constructor.
  - apply narrow_model_wf.
  - vm_compute. reflexivity.
  - left. vm_compute. discriminate.
Defined.

(** The three ways in which the reader refuses the file of another model:
    a leaf of another shape, a leaf that is missing, a leaf that is left
    over. *)
Example load_other_shape :
  (toy_load "m.eqx" (save "m.eqx" wide_params narrow_model empty_world).2).1
  = Raise ShapeMismatch.
Proof. by vm_compute. Qed.

Example load_missing_leaves :
  (toy_load "m.eqx" (save "m.eqx" deep_params small_model empty_world).2).1
  = Raise TruncatedStream.
Proof. by vm_compute. Qed.

Example load_leftover_leaves :
  (toy_load "m.eqx" (save "m.eqx" small deep_model empty_world).2).1
  = Raise ShapeMismatch.
Proof. by vm_compute. Qed.

Lemma load_depends_on_bytes_only_witness :
  (toy_load "m.eqx" small_world).1
  = (load (fun _ => tt) (fun k _ _ => k) zero_uniform "m.eqx"
       (save "m.eqx" small small_model old_world).2).1.
Proof.
  apply (load_depends_on_bytes_only toy_PRNGKey toy_split toy_uniform
           (fun _ => tt) (fun k _ _ => k) zero_uniform "m.eqx").
  vm_compute. reflexivity.
Defined.

(** * Further properties of the notebook's functions *)

(** ** Dictionaries *)

Lemma forallb_Permutation {A} (f : A -> bool) (l l' : list A) :
  l ≡ₚ l' → forallb f l = forallb f l'.
Proof.
  induction 1 as [|x l l' _ IH|x y l|l l' l'' _ IH1 _ IH2]; simpl.
  - reflexivity.
  - by rewrite IH.
  - by rewrite !andb_assoc, (andb_comm (f y)).
  - by rewrite IH1.
Qed.

Lemma dict_get_elem (d : dict) (k : string) (v : pyval) :
  dict_wf d → dict_get k d = Some v ↔ (k, v) ∈ d.
Proof.
  unfold dict_wf. induction d as [|[k' v'] d IH]; intros Hnd.
  - simpl. split; [done | by intros ?%elem_of_nil].
  - simpl in *. apply NoDup_cons in Hnd as [Hk' Hnd].
    rewrite elem_of_cons. destruct (String.eqb_spec k k') as [->|Hne].
    + split.
      * intros [= ->]. by left.
      * intros [[= ->]|Hin]; [done |]. exfalso. apply Hk'.
        apply list_elem_of_In, (in_map fst) in Hin. by apply list_elem_of_In.
    + rewrite (IH Hnd). split; [by right |]. intros [[= -> _]|Hin]; done.
Qed.

Lemma dict_wf_Permutation (d d' : dict) : d ≡ₚ d' → dict_wf d → dict_wf d'.
Proof.
  unfold dict_wf. intros Hp Hd.
  by rewrite <- (Permutation_map fst Hp).
Qed.

Lemma dict_get_Permutation (d d' : dict) (k : string) :
  dict_wf d → d ≡ₚ d' → dict_get k d = dict_get k d'.
Proof.
  intros Hd Hp. pose proof (dict_wf_Permutation d d' Hp Hd) as Hd'.
  destruct (dict_get k d) as [v|] eqn:E.
  - symmetry. apply dict_get_elem; [done |]. rewrite <- Hp.
    by apply dict_get_elem.
  - destruct (dict_get k d') as [v'|] eqn:E'; [|done].
    apply dict_get_elem in E'; [|done]. rewrite <- Hp in E'.
    apply dict_get_elem in E'; [|done]. congruence.
Qed.

Lemma dict_get_app (d d' : dict) (k : string) :
  dict_get k (d ++ d')
  = match dict_get k d with
    | Some v => Some v
    | None => dict_get k d'
    end.
Proof.
  induction d as [|[k' v'] d IH]; [done |]. simpl.
  by destruct (String.eqb k k').
Qed.

(** ** Blank lines *)

Lemma blank_line_decodes (l : list byte) :
  forallb is_ws_byte l = true →
  ∃ s, bytes_decode l = Ok s ∧ skip_ws s = EmptyString.
Proof.
  induction l as [|b l IH]; [by exists EmptyString |].
  cbn [forallb]. intros [Hb Hl]%andb_prop.
  destruct (IH Hl) as (s & Hs & Hws).
  destruct b; try discriminate Hb;
    cbn [bytes_decode]; rewrite Hs; eexists; (split; [reflexivity | exact Hws]).
Qed.

Lemma json_loads_blank (s : string) :
  skip_ws s = EmptyString → json_loads s = Raise JSONDecodeError.
Proof. intros Hs. unfold json_loads. by rewrite Hs. Qed.

(** ** What the writer and the reader do to the world *)

Lemma save_world (path : string) (params : dict) (model : MLP) (w : world) :
  files (save path params model w).2 = <[path := saved_bytes params model]> (files w)
  ∧ handles (save path params model w).2 = handles w.
Proof.
  unfold saved_bytes. destruct (json_dumps params) as [s|e] eqn:Hs.
  - by rewrite (save_ok _ _ _ _ s Hs).
  - by rewrite (save_raise _ _ _ _ e Hs).
Qed.

Section Coverage.

Context {prng_key : Type}.
Variable PRNGKey : Z -> prng_key.
Variable jr_split : prng_key -> nat -> nat -> prng_key.
Variable jr_uniform : prng_key -> nat -> nat -> f32.

Local Abbreviation make_kwargs' := (make_kwargs jr_split jr_uniform).
Local Abbreviation load' := (load PRNGKey jr_split jr_uniform).
Local Abbreviation load_result' := (load_result PRNGKey jr_split jr_uniform).

Lemma load_world (path : string) (w : world) :
  files (load' path w).2 = files w ∧ handles (load' path w).2 = handles w.
Proof.
  destruct (files w !! path) as [c|] eqn:Hf.
  - by rewrite (load_run _ _ _ _ _ _ Hf).
  - by rewrite (load_missing _ _ _ _ _ Hf).
Qed.

Lemma load_of_file (path : string) (w : world) :
  (load' path w).1
  = match files w !! path with
    | Some c => load_result' c
    | None => Raise FileNotFoundError
    end.
Proof.
  destruct (files w !! path) as [c|] eqn:Hf.
  - by rewrite (load_run _ _ _ _ _ _ Hf).
  - by rewrite (load_missing _ _ _ _ _ Hf).
Qed.

(** X1. When the header parses but the constructor raises, the reader
    raises the constructor's exception: it has read the line and called the
    constructor, it has not read the weights, and it has closed the file. *)
Theorem load_constructor_raises (filename : string) (c : list byte) (w : world)
    (params : dict) (e : exn) :
  files w !! filename = Some c →
  parse_header (take_line c) = Ok params →
  make_kwargs' (PRNGKey 0) params = Raise e →
  (load' filename w).1 = Raise e
  ∧ (∃ fd, trace (load' filename w).2
           = trace w ++ [EvOpen fd filename rb; EvReadline fd (take_line c);
                         EvMake params; EvClose fd])
  ∧ handles (load' filename w).2 = handles w.
Proof.
  intros Hf Hp Hm. rewrite (load_run _ _ _ _ _ _ Hf). cbn [fst snd trace handles].
  unfold load_result, load_events. rewrite Hp.
  cbn [mbind result_mbind result_bind]. rewrite Hm.
  split; [done |]. split; [by eexists | done].
Qed.

(** X4. Keyword arguments are bound by name: the order of the items of
    the hyperparameters does not matter to the constructor. *)
Theorem make_order_irrelevant (key : prng_key) (params params' : dict) :
  dict_wf params → params ≡ₚ params' →
  make_kwargs' key params = make_kwargs' key params'.
Proof.
  intros Hwf Hp. unfold make_kwargs.
  rewrite (forallb_Permutation _ _ _ Hp).
  by rewrite !(dict_get_Permutation params params' _ Hwf Hp).
Qed.

(** X5. The parameter [use_tanh] defaults to [False] and is only tested
    for truth: hyperparameters that give it a false value ([False], [0],
    [None], the empty string) build the model that hyperparameters without
    it build. *)
Theorem make_use_tanh_default (key : prng_key) (params : dict) (v : pyval) :
  dict_get "use_tanh" params = None → py_truth v = false →
  make_kwargs' key (params ++ [("use_tanh", v)]) = make_kwargs' key params.
Proof.
  intros Hnone Hv. unfold make_kwargs.
  rewrite forallb_app. cbn [forallb fst]. 
  change (is_make_keyword "use_tanh") with true. rewrite !andb_true_r.
  destruct (forallb _ params); [|done].
  rewrite !dict_get_app, Hnone.
  destruct (dict_get "size" params) as [size|]; [|done].
  destruct (dict_get "width" params) as [width|]; [|done].
  destruct (dict_get "depth" params) as [depth|]; [|done].
  change (dict_get "use_tanh" [("use_tanh", v)]) with (Some v).
  unfold make. cbn [default from_option id]. by rewrite Hv.
Qed.

(** X6. The reader only reads: whatever it returns or raises, the files
    and the table of open file objects are what they were, so that a later
    run of the reader, on any file, gives what it would have given. *)
Theorem load_read_only (filename : string) (w : world) :
  files (load' filename w).2 = files w
  ∧ handles (load' filename w).2 = handles w
  ∧ ∀ other, (load' other (load' filename w).2).1 = (load' other w).1.
Proof.
  destruct (load_world filename w) as [Hf Hh]. split; [done |]. split; [done |].
  intros other. by rewrite !load_of_file, Hf.
Qed.

(** X9. A file whose first line is blank (empty, or made of JSON
    whitespace only; an empty file is one) makes the reader raise
    [JSONDecodeError], before any call of the constructor. *)
Theorem load_blank_header (filename : string) (c : list byte) (w : world) :
  files w !! filename = Some c →
  forallb is_ws_byte (take_line c) = true →
  (load' filename w).1 = Raise JSONDecodeError
  ∧ ∃ fd, trace (load' filename w).2
          = trace w ++ [EvOpen fd filename rb; EvReadline fd (take_line c);
                        EvClose fd].
Proof.
  intros Hf Hws. destruct (blank_line_decodes _ Hws) as (s & Hs & Hblank).
  rewrite (load_run _ _ _ _ _ _ Hf). cbn [fst snd trace].
  unfold load_result, load_events, parse_header. rewrite Hs.
  cbn [mbind result_mbind result_bind]. rewrite (json_loads_blank s Hblank).
  split; [done | by eexists].
Qed.

(** X10. The round trip of a trained model: the writer takes any model;
    when the model is well formed and has the structure the constructor
    gives the hyperparameters, whatever its weights, the reader returns
    it. *)
Theorem trained_model_roundtrip (H : dict) (M : MLP) (filename : string) (w : world) :
  dict_wf H → representable H →
  make_structure H = Ok (tree_structure M) → model_wf M →
  (save filename H M w).1 = Ok tt
  ∧ (load' filename (save filename H M w).2).1 = Ok M.
Proof.
  intros Hwf Hrep Hst Hm. destruct (json_dumps_representable H Hrep) as [s Hs].
  split; [by rewrite (save_ok _ _ _ _ s Hs) |].
  rewrite (load_run _ _ _ _ _ _ (contents_saved filename H M w s Hs)). cbn [fst].
  by apply (load_result_compatible PRNGKey jr_split jr_uniform H).
Qed.

(** X11. The writer does not try the hyperparameters on the constructor:
    with hyperparameters it can encode but the constructor rejects, it
    writes the file and returns; the constructor's exception is raised
    when the file is read back. *)
Theorem save_unchecked_hyperparameters (H : dict) (M : MLP) (filename : string)
    (w : world) (e : exn) :
  dict_wf H → representable H →
  make_kwargs' (PRNGKey 0) H = Raise e →
  (save filename H M w).1 = Ok tt
  ∧ (load' filename (save filename H M w).2).1 = Raise e.
Proof.
  intros Hwf Hrep Hm. destruct (json_dumps_representable H Hrep) as [s Hs].
  split; [by rewrite (save_ok _ _ _ _ s Hs) |].
  rewrite (load_run _ _ _ _ _ _ (contents_saved filename H M w s Hs)). cbn [fst].
  rewrite (load_result_file PRNGKey jr_split jr_uniform H) by done.
  by rewrite Hm.
Qed.

(** X13. After a write that failed on the hyperparameters, the file is
    there and empty: reading it back raises [JSONDecodeError], not
    [FileNotFoundError], and gives no model, whatever the file held before
    the write. *)
Theorem load_after_failed_save (H : dict) (M : MLP) (filename : string) (w : world) :
  unrepresentable H →
  (save filename H M w).1 = Raise TypeError
  ∧ (load' filename (save filename H M w).2).1 = Raise JSONDecodeError.
Proof.
  intros HH. pose proof (json_dumps_unrepresentable H HH) as Hs.
  split; [by rewrite (save_raise _ _ _ _ _ Hs) |].
  rewrite load_of_file. destruct (save_world filename H M w) as [-> _].
  rewrite lookup_insert_eq. unfold saved_bytes. by rewrite Hs.
Qed.

End Coverage.

Section Keys.

Context {key1 key2 : Type}.
Variable jr_split1 : key1 -> nat -> nat -> key1.
Variable jr_uniform1 : key1 -> nat -> nat -> f32.
Variable jr_split2 : key2 -> nat -> nat -> key2.
Variable jr_uniform2 : key2 -> nat -> nat -> f32.

(** X12. The key gives the constructor its initial weights and nothing
    else: with the same hyperparameters and any two keys, of any two
    generators, it raises the same exception or builds two models of the
    same structure (the same leaves of the same shapes in the same order,
    the same activation). *)
Theorem make_structure_independent_of_key (k1 : key1) (k2 : key2) (params : dict) :
  result_map tree_structure (make_kwargs jr_split1 jr_uniform1 k1 params)
  = result_map tree_structure (make_kwargs jr_split2 jr_uniform2 k2 params).
Proof.
  by rewrite (make_kwargs_structure jr_split1 jr_uniform1),
             (make_kwargs_structure jr_split2 jr_uniform2).
Qed.

End Keys.

(** ** Instances of the further properties *)

Lemma load_constructor_raises_witness :
  (toy_load "incomplete.eqx" incomplete_world).1 = Raise TypeError.
Proof.
  destruct (load_constructor_raises toy_PRNGKey toy_split toy_uniform
              "incomplete.eqx"
              (str_encode ("{" +:+ quoted "size" +:+ ": 2}")
               ++ [newline_byte; x00; x01])
              incomplete_world [("size", PInt 2)] TypeError) as (H & _).
  - vm_compute. reflexivity.
  - vm_compute. reflexivity.
  - vm_compute. reflexivity.
  - exact H.
Defined.

Lemma shuffled_small : small ≡ₚ shuffled.
Proof.
  exact (Permutation_app_comm [("size", PInt 2); ("width", PInt 1)]
                              [("depth", PInt 1)]).
Qed.

Lemma make_order_irrelevant_witness : toy_make 7%Z small = toy_make 7%Z shuffled.
Proof.
  apply (make_order_irrelevant toy_split toy_uniform 7%Z small shuffled).
  - apply small_wf.
  - apply shuffled_small.
Defined.

Lemma make_use_tanh_default_witness :
  toy_make 7%Z (small ++ [("use_tanh", PInt 0)]) = toy_make 7%Z small.
Proof.
  apply (make_use_tanh_default toy_split toy_uniform 7%Z small (PInt 0));
    reflexivity.
Defined.

Lemma load_blank_header_witness :
  (toy_load "blank.eqx" blank_world).1 = Raise JSONDecodeError.
Proof.
  destruct (load_blank_header toy_PRNGKey toy_split toy_uniform "blank.eqx"
              [x20; x0d; newline_byte; x01; x02] blank_world) as [H _].
  - vm_compute. reflexivity.
  - vm_compute. reflexivity.
  - exact H.
Defined.

Lemma trained_model_wf : model_wf trained_model.
Proof. repeat constructor. Qed.

Lemma trained_model_roundtrip_witness :
  trained_model ≠ small_model
  ∧ (toy_load "m.eqx" (save "m.eqx" small trained_model empty_world).2).1
    = Ok trained_model.
Proof.
  split; [discriminate |].
  destruct (trained_model_roundtrip toy_PRNGKey toy_split toy_uniform small
              trained_model "m.eqx" empty_world) as [_ H].
  - apply small_wf.
  - apply small_representable.
  - vm_compute. reflexivity.
  - apply trained_model_wf.
  - exact H.
Defined.

Lemma save_unchecked_hyperparameters_witness :
  (save "m.eqx" [] small_model empty_world).1 = Ok tt
  ∧ (toy_load "m.eqx" (save "m.eqx" [] small_model empty_world).2).1
    = Raise TypeError.
Proof.
  apply (save_unchecked_hyperparameters toy_PRNGKey toy_split toy_uniform []
           small_model "m.eqx" empty_world TypeError).
  - apply NoDup_nil_2.
  - constructor.
  - reflexivity.
Defined.

Lemma load_after_failed_save_witness :
  files old_world !! "multipart_serialised.eqx" = Some [x01; x02; x03]
  ∧ (toy_load "multipart_serialised.eqx"
       (save "multipart_serialised.eqx" bad_params small_model old_world).2).1
    = Raise JSONDecodeError.
Proof.
  split; [reflexivity |].
  destruct (load_after_failed_save toy_PRNGKey toy_split toy_uniform bad_params
              small_model "multipart_serialised.eqx" old_world) as [_ H].
  - unfold unrepresentable, bad_params. apply Exists_cons_tl, Exists_cons_hd.
    reflexivity.
  - exact H.
Defined.
